(** * Cart-pole playground: dynamics, integrator, controller, metrics

    A shallow embedding of the numerical core of the cart-pole simulator
    ([params.py], [utils.py], [dynamics.py], [controller.py], [metrics.py]
    and the frame loop of [main.py]), with the pixel mapping of
    [plotting.py] and the slider arithmetic of [gui.py].

    Number model.  Python [float] values are modelled by the real numbers
    [R] of the Standard Library: [+ - * /] are the field operations,
    [math.sin], [math.cos] and [math.pi] are [sin], [cos] and [PI], and the
    float remainder [a % b] is [a - floor(a/b) * b].  Rounding, infinities
    and NaN are outside the model.  Since a rounded remainder can reach
    its divisor and a rounded [tanh] can reach 1, ranges are stated as
    closed intervals, which hold with and without rounding.  A numpy
    array of four floats is the record [State]. *)

From Stdlib Require Import Reals Lra Lia ZArith List Bool.
From Stdlib Require String.
Import String.StringSyntax.
Delimit Scope string_scope with string.
Import ListNotations.

Local Open Scope R_scope.

(** ** Comparisons of floats as booleans *)

Definition Rleb (a b : R) : bool := if Rle_dec a b then true else false.
Definition Rltb (a b : R) : bool := if Rlt_dec a b then true else false.
Definition Rgeb (a b : R) : bool := Rleb b a.
Definition Rgtb (a b : R) : bool := Rltb b a.

(** Python's [a % b] on floats: the result has the sign of [b]. *)
Definition float_mod (a b : R) : R := a - IZR (Zfloor (a / b)) * b.

(** Python's builtin [max(a, b)]: [b] when [b > a], otherwise [a]. *)
Definition py_max (a b : R) : R := if Rgtb b a then b else a.

(** Python's builtin [min(a, b)]: [b] when [b < a], otherwise [a]. *)
Definition py_min (a b : R) : R := if Rltb b a then b else a.

(** ** params.py *)

Module params.

Record Params := mkParams {
  M : R;
  m : R;
  l : R;
  g : R;
  cart_damping : R;
  pole_damping : R;
  max_force : R;
  max_mouse_force : R;
  dt : R;
  substeps : nat;
  pixels_per_meter : R;
  cart_width_m : R;
  cart_height_m : R;
  wheel_radius_m : R;
  settle_x_thresh : R;
  settle_theta_thresh : R;
  settle_hold_time : R
}.

(** [math.radians(d)] *)
Definition radians (d : R) : R := d * PI / 180.

Definition P : Params := {|
  M := 1.0;
  m := 0.2;
  l := 0.5;
  g := 9.81;
  cart_damping := 0.05;
  pole_damping := 0.02;
  max_force := 50.0;
  max_mouse_force := 50.0;
  dt := 1.0 / 240.0;
  substeps := 2;
  pixels_per_meter := 170.0;
  cart_width_m := 0.55;
  cart_height_m := 0.25;
  wheel_radius_m := 0.05;
  settle_x_thresh := 0.05;
  settle_theta_thresh := radians 3.0;
  settle_hold_time := 1.0
|}.

End params.

Abbreviation P := params.P.

(** ** The state vector: a numpy array [x, x_dot, theta, theta_dot] *)

Record State := mkState {
  x : R;
  x_dot : R;
  theta : R;
  theta_dot : R
}.

(** numpy [a + b] on arrays of length four *)
Definition vadd (a b : State) : State :=
  mkState (x a + x b) (x_dot a + x_dot b)
          (theta a + theta b) (theta_dot a + theta_dot b).

(** numpy [c * a] for a scalar [c] *)
Definition smul (c : R) (a : State) : State :=
  mkState (c * x a) (c * x_dot a) (c * theta a) (c * theta_dot a).

(** [st[0] = v], [st[1] = v], [st[2] = v] *)
Definition set_x (st : State) (v : R) : State :=
  mkState v (x_dot st) (theta st) (theta_dot st).
Definition set_x_dot (st : State) (v : R) : State :=
  mkState (x st) v (theta st) (theta_dot st).
Definition set_theta (st : State) (v : R) : State :=
  mkState (x st) (x_dot st) v (theta_dot st).

Declare Scope vec_scope.
Delimit Scope vec_scope with vec.
Bind Scope vec_scope with State.
Infix "+" := vadd : vec_scope.
Infix "*:" := smul (at level 40, left associativity) : vec_scope.

(** ** utils.py *)

Definition wrap_angle (th : R) : R := float_mod (th + PI) (2 * PI) - PI.

Definition clamp (v lo hi : R) : R := py_max lo (py_min hi v).

Definition mechanical_energy (state : State) : R :=
  let '(mkState x x_dot theta theta_dot) := state in
  let s := sin theta in
  let c := cos theta in
  let x_com_dot := x_dot + params.l P * theta_dot * c in
  let y_com_dot := - params.l P * theta_dot * s in
  let v_com2 := x_com_dot ^ 2 + y_com_dot ^ 2 in
  let T_cart := 0.5 * params.M P * x_dot ^ 2 in
  let T_com := 0.5 * params.m P * v_com2 in
  let I_com := (1.0 / 3.0) * params.m P * (params.l P ^ 2) in
  let T_rot := 0.5 * I_com * theta_dot ^ 2 in
  let V := params.m P * params.g P * params.l P * (1.0 - c) in
  T_cart + T_com + T_rot + V.

Definition mouse_force (cart_x_px mouse_x_px : R) (left_down right_down : bool)
  : R :=
  if negb (left_down || right_down) then 0.0
  else
    let dx_px := mouse_x_px - cart_x_px in
    let f :=
      if left_down then
        let k := 0.16 in
        k * dx_px
      else 26.0 * tanh (dx_px / 75.0) in
    clamp f (- params.max_mouse_force P) (params.max_mouse_force P).

(** ** dynamics.py *)

Definition dynamics_free (state : State) (force cart_damp pole_damp : R)
  : State :=
  let '(mkState x x_dot theta theta_dot) := state in
  let force_eff := force - cart_damp * x_dot in
  let s := sin theta in
  let c := cos theta in
  let tau_damp := - pole_damp * theta_dot in
  let theta_dd_extra :=
    tau_damp / (params.m P * (params.l P ^ 2) + 1e-9) in
  let temp :=
    (force_eff + params.m P * params.l P * (theta_dot ^ 2) * s)
    / (params.M P + params.m P) in
  let denom :=
    params.l P
    * (4.0 / 3.0 - (params.m P * (c ^ 2)) / (params.M P + params.m P)) in
  let theta_dd := (params.g P * s - c * temp) / (denom + 1e-9) in
  let x_dd :=
    temp - (params.m P * params.l P * theta_dd * c)
           / (params.M P + params.m P) in
  let theta_dd := theta_dd + theta_dd_extra in
  mkState x_dot x_dd theta_dot theta_dd.

(** Cart held at wall: x_dot = 0, x_dd = 0; pole is a fixed-pivot rod. *)
Definition dynamics_constrained (state : State) (pole_damp : R) : State :=
  let '(mkState x x_dot theta theta_dot) := state in
  let s := sin theta in
  let tau_damp := - pole_damp * theta_dot in
  let theta_dd_extra :=
    tau_damp / (params.m P * (params.l P ^ 2) + 1e-9) in
  let denom_fixed := params.l P * (4.0 / 3.0) in
  let theta_dd := (params.g P * s) / (denom_fixed + 1e-9) + theta_dd_extra in
  mkState 0.0 0.0 theta_dot theta_dd.

Definition rk4_step (state : State) (force dt : R) (constrained : bool)
  (cart_damp pole_damp : R) : State :=
  let f :=
    if constrained
    then (fun st => dynamics_constrained st pole_damp)
    else (fun st => dynamics_free st force cart_damp pole_damp) in
  let k1 := f state in
  let k2 := f (state + 0.5 * dt *: k1)%vec in
  let k3 := f (state + 0.5 * dt *: k2)%vec in
  let k4 := f (state + dt *: k3)%vec in
  let nxt :=
    (state + (dt / 6.0) *: (k1 + 2 *: k2 + 2 *: k3 + k4))%vec in
  set_theta nxt (wrap_angle (theta nxt)).

(** *** dynamics.py with the divisions checked

    A division by zero does not yield a number: Python floats raise
    [ZeroDivisionError], numpy scalars give [inf] or [nan] with a
    warning.  [None] stands for either outcome. *)

Definition py_div (a b : R) : option R :=
  if Req_dec_T b 0 then None else Some (a / b).

Definition bind {A B : Type} (o : option A) (k : A -> option B) : option B :=
  match o with
  | Some a => k a
  | None => None
  end.

Notation "x <- e ;; k" := (bind e (fun x => k))
  (at level 61, e at next level, right associativity).

Definition dynamics_free_checked (state : State)
  (force cart_damp pole_damp : R) : option State :=
  let '(mkState x x_dot theta theta_dot) := state in
  let force_eff := force - cart_damp * x_dot in
  let s := sin theta in
  let c := cos theta in
  let tau_damp := - pole_damp * theta_dot in
  theta_dd_extra <-
    py_div tau_damp (params.m P * (params.l P ^ 2) + 1e-9) ;;
  temp <-
    py_div (force_eff + params.m P * params.l P * (theta_dot ^ 2) * s)
           (params.M P + params.m P) ;;
  q <- py_div (params.m P * (c ^ 2)) (params.M P + params.m P) ;;
  let denom := params.l P * (4.0 / 3.0 - q) in
  theta_dd <- py_div (params.g P * s - c * temp) (denom + 1e-9) ;;
  r <- py_div (params.m P * params.l P * theta_dd * c)
              (params.M P + params.m P) ;;
  let x_dd := temp - r in
  let theta_dd := theta_dd + theta_dd_extra in
  Some (mkState x_dot x_dd theta_dot theta_dd).

Definition dynamics_constrained_checked (state : State) (pole_damp : R)
  : option State :=
  let '(mkState x x_dot theta theta_dot) := state in
  let s := sin theta in
  let tau_damp := - pole_damp * theta_dot in
  theta_dd_extra <-
    py_div tau_damp (params.m P * (params.l P ^ 2) + 1e-9) ;;
  let denom_fixed := params.l P * (4.0 / 3.0) in
  q <- py_div (params.g P * s) (denom_fixed + 1e-9) ;;
  let theta_dd := q + theta_dd_extra in
  Some (mkState 0.0 0.0 theta_dot theta_dd).

(** ** controller.py *)

Module Controller.

Record t := mk {
  k_p : R;
  k_i : R;
  k_d : R;
  x_err_i : R;
  prev_t : R
}.

(** [Controller.__init__] *)
Definition init : t := mk 5.0 2.0 3.0 0.0 0.0.

(** The gains are plain attributes, written from outside for live tuning. *)
Definition set_gains (self : t) (kp ki kd : R) : t :=
  mk kp ki kd (x_err_i self) (prev_t self).

(** [Controller.reset] *)
Definition reset (self : t) : t :=
  mk (k_p self) (k_i self) (k_d self) 0.0 0.0.

(** [Controller.__call__]: the returned force and the mutated object. *)
Definition call (self : t) (state : State) (t ref_x ref_theta : R)
  : R * Controller.t :=
  let x := x state in
  let x_dot := x_dot state in
  let theta := theta state in
  let theta_dot := theta_dot state in
  let dt := t - prev_t self in
  let self := mk (k_p self) (k_i self) (k_d self) (x_err_i self) t in
  let x_err := ref_x - x in
  let self :=
    mk (k_p self) (k_i self) (k_d self)
       (x_err_i self + x_err * dt) (prev_t self) in
  let u_p := k_p self * x_err in
  let u_i := k_i self * x_err_i self in
  let u_d := k_d self * x_dot * -1.0 in
  let u := u_p + u_i + u_d in
  (u, self).

End Controller.

(** ** metrics.py *)

Module Metrics.

Record t := mk {
  max_abs_theta : R;
  max_abs_x_dev : R;
  energy_abs_impulse : R;
  settle_time : option R;
  _in_band_since : option R
}.

(** The dataclass defaults. *)
Definition init : t := mk 0.0 0.0 0.0 None None.

Definition reset (self : t) : t := mk 0.0 0.0 0.0 None None.

(** The local [in_band] of [update]. *)
Definition in_band (x_err theta_err : R) : bool :=
  Rleb (Rabs x_err) (params.settle_x_thresh P)
  && Rleb (Rabs theta_err) (params.settle_theta_thresh P).

Definition update (self : t) (state : State)
  (t force ref_x ref_theta dt : R) : Metrics.t :=
  let x := x state in
  let theta := theta state in
  let theta_err := wrap_angle (theta - ref_theta) in
  let x_err := x - ref_x in
  let max_abs_theta := py_max (max_abs_theta self) (Rabs theta_err) in
  let max_abs_x_dev := py_max (max_abs_x_dev self) (Rabs x_err) in
  let energy_abs_impulse := energy_abs_impulse self + Rabs force * dt in
  let in_band := in_band x_err theta_err in
  match settle_time self with
  | None =>
      if in_band then
        match _in_band_since self with
        | None =>
            mk max_abs_theta max_abs_x_dev energy_abs_impulse None (Some t)
        | Some since =>
            if Rgeb (t - since) (params.settle_hold_time P) then
              mk max_abs_theta max_abs_x_dev energy_abs_impulse
                 (Some since) (Some since)
            else
              mk max_abs_theta max_abs_x_dev energy_abs_impulse
                 None (Some since)
        end
      else mk max_abs_theta max_abs_x_dev energy_abs_impulse None None
  | Some st =>
      mk max_abs_theta max_abs_x_dev energy_abs_impulse
         (Some st) (_in_band_since self)
  end.

End Metrics.

(** ** main.py: the track geometry and the sub-step loop *)

Module main.

(** Python's [int(r)] on a float: truncation towards zero. *)
Definition float_to_int (r : R) : Z :=
  if Rleb 0 r then Zfloor r else Zceil r.

Definition W : Z := 1600.
Definition H : Z := 800.

Definition ppm : R := params.pixels_per_meter P.
Definition cart_w : Z := float_to_int (params.cart_width_m P * ppm).

Definition x_min_px : Z := (cart_w / 2 + 12)%Z.
Definition x_max_px : Z := (W - cart_w / 2 - 12)%Z.
Definition x_min_m : R := (IZR x_min_px - IZR W / 2) / ppm.
Definition x_max_m : R := (IZR x_max_px - IZR W / 2) / ppm.

Definition constraint_flag (st : State) (force_total : R) : bool :=
  let eps := 1e-6 in
  let x := x st in
  let at_left := Rleb x (x_min_m + eps) in
  let at_right := Rgeb x (x_max_m - eps) in
  let pushing_left := Rltb force_total 0.0 in
  let pushing_right := Rgtb force_total 0.0 in
  (at_left && pushing_left) || (at_right && pushing_right).

(** What the body of [for _ in range(P.substeps)] reads and writes. *)
Record Sim := mkSim {
  sim_state : State;
  sim_t : R;
  sim_metrics : Metrics.t
}.

(** The clamp applied before integrating, when [constrained]. *)
Definition pre_clamp (state : State) : State :=
  let state := if Rleb (x state) x_min_m then set_x state x_min_m else state in
  let state := if Rgeb (x state) x_max_m then set_x state x_max_m else state in
  set_x_dot state 0.0.

(** The safety clamp applied after integrating. *)
Definition safety_clamp (state : State) : State :=
  if Rltb (x state) x_min_m then
    let state := set_x state x_min_m in
    if Rltb (x_dot state) 0 then set_x_dot state 0.0 else state
  else if Rgtb (x state) x_max_m then
    let state := set_x state x_max_m in
    if Rgtb (x_dot state) 0 then set_x_dot state 0.0 else state
  else state.

(** One pass through the body of the sub-step loop. *)
Definition substep (f_total ref_x ref_theta cart_damp pole_damp : R)
  (s : Sim) : Sim :=
  let state := sim_state s in
  let constrained := constraint_flag state f_total in
  let state := if constrained then pre_clamp state else state in
  let state :=
    rk4_step state f_total (params.dt P) constrained cart_damp pole_damp in
  let state := safety_clamp state in
  let t := sim_t s + params.dt P in
  let metrics :=
    Metrics.update (sim_metrics s) state t f_total ref_x ref_theta
                    (params.dt P) in
  mkSim state t metrics.

(** [for _ in range(n): ...] *)
Fixpoint substeps_loop (n : nat)
  (f_total ref_x ref_theta cart_damp pole_damp : R) (s : Sim) : Sim :=
  match n with
  | O => s
  | S n' =>
      substeps_loop n' f_total ref_x ref_theta cart_damp pole_damp
        (substep f_total ref_x ref_theta cart_damp pole_damp s)
  end.

(** *** The rest of a frame: inputs, forces, history *)

Definition cart_px_from_x (x_m : R) : R := IZR W / 2 + x_m * ppm.

Definition key_force_mag : R := 18.0.

Definition reset_state : State := mkState 0.0 0.0 0.15 0.0.

(** What a frame polls: the arrow and reference keys, whether the
    parameter panel is editing a text field or dragging a slider, and the
    mouse ([pygame] reports the pointer in whole pixels). *)
Record Inputs := mkInputs {
  key_LEFT : bool;
  key_RIGHT : bool;
  key_q : bool;
  key_a : bool;
  key_w : bool;
  key_s : bool;
  panel_editing : bool;
  panel_dragging : bool;
  mouse_x : Z;
  mouse_left : bool;
  mouse_right : bool
}.

(** The assignment of [key_force]. *)
Definition keyboard_force (inp : Inputs) : R :=
  if negb (panel_editing inp) then
    if key_LEFT inp && negb (key_RIGHT inp) then - key_force_mag
    else if key_RIGHT inp && negb (key_LEFT inp) then key_force_mag
    else 0.0
  else 0.0.

(** The reference adjustments; nothing happens while a text field is
    being edited. *)
Definition adjust_refs (inp : Inputs) (ref_x ref_theta : R) : R * R :=
  if negb (panel_editing inp) then
    let ref_x := if key_q inp then ref_x - 0.01 else ref_x in
    let ref_x := if key_a inp then ref_x + 0.01 else ref_x in
    let ref_x := clamp ref_x x_min_m x_max_m in
    let ref_theta :=
      if key_w inp then ref_theta + params.radians 0.5 else ref_theta in
    let ref_theta :=
      if key_s inp then ref_theta - params.radians 0.5 else ref_theta in
    let ref_theta := wrap_angle ref_theta in
    (ref_x, ref_theta)
  else (ref_x, ref_theta).

Record Forces := mkForces {
  u_raw : R;
  u : R;
  is_saturated : bool;
  f_mouse : R;
  f_total : R
}.

(** The block under the comment "Forces", with the masking of the mouse
    buttons that precedes it.  The module-level [controller] function
    delegates to the shared [_controller] object, which is threaded here. *)
Definition frame_forces (c : Controller.t) (state : State)
  (t ref_x ref_theta key_force : R) (inp : Inputs) : Forces * Controller.t :=
  let left_down := mouse_left inp in
  let right_down := mouse_right inp in
  let '(left_down, right_down) :=
    if panel_dragging inp || panel_editing inp
    then (false, false) else (left_down, right_down) in
  let '(u_raw, c) := Controller.call c state t ref_x ref_theta in
  let u := clamp u_raw (- params.max_force P) (params.max_force P) in
  let is_saturated := Rgtb (Rabs u_raw) (params.max_force P) in
  let cart_x_px := cart_px_from_x (x state) in
  let f_mouse := mouse_force cart_x_px (IZR (mouse_x inp))
                             left_down right_down in
  let f_total := u + f_mouse + key_force in
  (mkForces u_raw u is_saturated f_mouse f_total, c).

(** [P.history_len] of params.py. *)
Definition history_len : nat := 900.

(** [collections.deque(maxlen=n).append(v)]: the new item goes to the
    right end, and the leftmost one is dropped when the length exceeds
    [maxlen]. *)
Definition deque_append {A : Type} (maxlen : nat) (d : list A) (v : A)
  : list A :=
  let d := d ++ [v] in
  if (maxlen <? length d)%nat then tl d else d.

Record History := mkHistory {
  hist_t : list R;
  hist_x : list R;
  hist_x_dot : list R;
  hist_theta : list R;
  hist_theta_dot : list R;
  hist_force : list R
}.

Definition history_clear : History := mkHistory [] [] [] [] [] [].

Definition push_history (h : History) (tt : R) (st : State) (force : R)
  : History :=
  mkHistory
    (deque_append history_len (hist_t h) tt)
    (deque_append history_len (hist_x h) (x st))
    (deque_append history_len (hist_x_dot h) (x_dot st))
    (deque_append history_len (hist_theta h) (wrap_angle (theta st)))
    (deque_append history_len (hist_theta_dot h) (theta_dot st))
    (deque_append history_len (hist_force h) force).

(** The variables of [main] that a frame reads and writes. *)
Record World := mkWorld {
  w_sim : Sim;
  w_controller : Controller.t;
  w_ref_x : R;
  w_ref_theta : R;
  w_paused : bool;
  w_friction_on : bool;
  w_hist : History
}.

(** The body of the [while running] loop from the polling of the keys to
    [push_history]; drawing reads the result and changes nothing. *)
Definition frame (inp : Inputs) (w : World) : World * Forces :=
  let key_force := keyboard_force inp in
  let '(ref_x, ref_theta) := adjust_refs inp (w_ref_x w) (w_ref_theta w) in
  let cart_damp :=
    if w_friction_on w then params.cart_damping P else 0.0 in
  let pole_damp :=
    if w_friction_on w then params.pole_damping P else 0.0 in
  let '(forces, c) :=
    frame_forces (w_controller w) (sim_state (w_sim w)) (sim_t (w_sim w))
                 ref_x ref_theta key_force inp in
  if negb (w_paused w) then
    let sim :=
      substeps_loop (params.substeps P) (f_total forces) ref_x ref_theta
                    cart_damp pole_damp (w_sim w) in
    let hist :=
      push_history (w_hist w) (sim_t sim) (sim_state sim) (f_total forces) in
    (mkWorld sim c ref_x ref_theta (w_paused w) (w_friction_on w) hist,
     forces)
  else
    (mkWorld (w_sim w) c ref_x ref_theta (w_paused w) (w_friction_on w)
             (w_hist w),
     forces).

End main.

(** ** plotting.py: the pixel mapping of the phase plot *)

Module plotting.

(** The fields of a [pygame.Rect] that the plots read. *)
Record Rect := mkRect {
  rect_x : Z;
  rect_y : Z;
  rect_width : Z;
  rect_height : Z
}.

(** The local function [to_px] of [draw_phase_plot], with the locals
    [pad], [plot_x], [plot_y], [plot_w], [plot_h] it closes over. *)
Definition to_px (rect : Rect) (xmin xmax ymin ymax : R) (xv yv : R)
  : Z * Z :=
  let pad := 6%Z in
  let plot_x := (rect_x rect + pad)%Z in
  let plot_y := (rect_y rect + pad)%Z in
  let plot_w := (rect_width rect - 2 * pad)%Z in
  let plot_h := (rect_height rect - 2 * pad)%Z in
  if Rleb xmax xmin || Rleb ymax ymin then
    ((plot_x + plot_w / 2)%Z, (plot_y + plot_h / 2)%Z)
  else
    let px := IZR plot_x + (xv - xmin) / (xmax - xmin) * IZR plot_w in
    let py :=
      IZR plot_y + IZR plot_h - (yv - ymin) / (ymax - ymin) * IZR plot_h in
    (main.float_to_int (clamp px (IZR plot_x) (IZR (plot_x + plot_w))),
     main.float_to_int (clamp py (IZR plot_y) (IZR (plot_y + plot_h)))).

End plotting.

(** ** gui.py: dragging a slider of the parameter panel *)

(** Python's [l[i]] on a list: negative indices count from the end, and
    [None] stands for [IndexError]. *)
Definition py_getitem {A : Type} (l : list A) (i : Z) : option A :=
  let n := Z.of_nat (length l) in
  if ((0 <=? i) && (i <? n))%Z then nth_error l (Z.to_nat i)
  else if ((- n <=? i) && (i <? 0))%Z then nth_error l (Z.to_nat (n + i))
  else None.

Module gui.

Record SliderConfig := mkSlider {
  name : String.string;
  attr : String.string;
  min_val : R;
  max_val : R;
  color : Z * Z * Z
}.

(** The controller as the panel sees it, through [getattr] and
    [setattr]: the five attributes that [Controller] defines, and any
    further attribute that a [setattr] with another name has created. *)
Record Ctrl := mkCtrl {
  fields : Controller.t;
  extra : list (String.string * R)
}.

Definition setattr (c : Ctrl) (a : String.string) (v : R) : Ctrl :=
  let f := fields c in
  if String.eqb a "k_p"%string then
    mkCtrl (Controller.mk v (Controller.k_i f) (Controller.k_d f)
                          (Controller.x_err_i f) (Controller.prev_t f))
           (extra c)
  else if String.eqb a "k_i"%string then
    mkCtrl (Controller.mk (Controller.k_p f) v (Controller.k_d f)
                          (Controller.x_err_i f) (Controller.prev_t f))
           (extra c)
  else if String.eqb a "k_d"%string then
    mkCtrl (Controller.mk (Controller.k_p f) (Controller.k_i f) v
                          (Controller.x_err_i f) (Controller.prev_t f))
           (extra c)
  else if String.eqb a "x_err_i"%string then
    mkCtrl (Controller.mk (Controller.k_p f) (Controller.k_i f)
                          (Controller.k_d f) v (Controller.prev_t f))
           (extra c)
  else if String.eqb a "prev_t"%string then
    mkCtrl (Controller.mk (Controller.k_p f) (Controller.k_i f)
                          (Controller.k_d f) (Controller.x_err_i f) v)
           (extra c)
  else mkCtrl f ((a, v) :: extra c).

(** [getattr(ctrl, a, default)] *)
Definition getattr (c : Ctrl) (a : String.string) (default : R) : R :=
  let f := fields c in
  if String.eqb a "k_p"%string then Controller.k_p f
  else if String.eqb a "k_i"%string then Controller.k_i f
  else if String.eqb a "k_d"%string then Controller.k_d f
  else if String.eqb a "x_err_i"%string then Controller.x_err_i f
  else if String.eqb a "prev_t"%string then Controller.prev_t f
  else
    match find (fun kv => String.eqb (fst kv) a) (extra c) with
    | Some kv => snd kv
    | None => default
    end.

Record ParameterPanel := mkPanel {
  x : Z;
  y : Z;
  width : Z;
  sliders : list SliderConfig;
  title : String.string;
  dragging_index : option Z;
  editing_index : option Z;
  edit_text : String.string;
  cursor_blink_timer : Z
}.

(** The styling attributes that [__init__] sets and nothing changes. *)
Definition padding : Z := 12.
Definition slider_height : Z := 6.
Definition slider_spacing : Z := 28.
Definition title_height : Z := 26.
Definition label_width : Z := 28.
Definition input_width : Z := 55.

(** [(x, y, width, height)] of the slider track. *)
Definition _get_slider_rect (self : ParameterPanel) (index : Z)
  : Z * Z * Z * Z :=
  let sx := (x self + padding + label_width + 6)%Z in
  let sy :=
    (y self + title_height + padding + index * slider_spacing + 6)%Z in
  let sw :=
    (width self - padding - label_width - 6 - input_width - 8 - padding)%Z in
  let sh := slider_height in
  (sx, sy, sw, sh).

(** [(x, y)] of the handle centre; [None] is [IndexError]. *)
Definition _get_handle_pos (self : ParameterPanel) (index : Z) (value : R)
  : option (Z * Z) :=
  let '(sx, sy, sw, sh) := _get_slider_rect self index in
  match py_getitem (sliders self) index with
  | None => None
  | Some slider =>
      let norm :=
        if Rgtb (max_val slider) (min_val slider)
        then (value - min_val slider) / (max_val slider - min_val slider)
        else 0.0 in
      let norm := py_max 0.0 (py_min 1.0 norm) in
      let hx := (sx + main.float_to_int (norm * IZR sw))%Z in
      let hy := (sy + sh / 2)%Z in
      Some (hx, hy)
  end.

(** Sets the dragged slider's attribute on the controller from the mouse
    abscissa; [None] is [IndexError]. *)
Definition _update_value_from_mouse (self : ParameterPanel) (mx : Z)
  (ctrl : Ctrl) : option Ctrl :=
  match dragging_index self with
  | None => Some ctrl
  | Some idx =>
      match py_getitem (sliders self) idx with
      | None => None
      | Some slider =>
          let '(sx, sy, sw, sh) := _get_slider_rect self idx in
          let norm :=
            if (0 <? sw)%Z then IZR (mx - sx) / IZR sw else 0.0 in
          let norm := py_max 0.0 (py_min 1.0 norm) in
          let value :=
            min_val slider + norm * (max_val slider - min_val slider) in
          Some (setattr ctrl (attr slider) value)
      end
  end.

End gui.

(** * Definitions used to state the properties *)

(** ** The free-motion derivative, in closed form *)

(** The derivative as the specification words it: the angular acceleration
    that enters [x_dd] already carries the damping term. *)
Definition dynamics_free_as_specified (state : State)
  (force cart_damp pole_damp : R) : State :=
  let eps := 1e-9 in
  let M := params.M P in
  let m := params.m P in
  let l := params.l P in
  let g := params.g P in
  let s := sin (theta state) in
  let c := cos (theta state) in
  let force_eff := force - cart_damp * x_dot state in
  let temp := (force_eff + m * l * theta_dot state ^ 2 * s) / (M + m) in
  let denom := l * (4 / 3 - m * c ^ 2 / (M + m)) in
  let damping_term := (- pole_damp * theta_dot state) / (m * l ^ 2 + eps) in
  let theta_dd := (g * s - c * temp) / (denom + eps) + damping_term in
  let x_dd := temp - m * l * theta_dd * c / (M + m) in
  mkState (x_dot state) x_dd (theta_dot state) theta_dd.

(** ** The integrator *)

(** The classic four-stage Runge-Kutta step, as the specification words
    it, for an arbitrary derivative function [f]. *)
Definition classic_rk4 (f : State -> State) (y : State) (h : R) : State :=
  let k1 := f y in
  let k2 := f (y + (h / 2) *: k1)%vec in
  let k3 := f (y + (h / 2) *: k2)%vec in
  let k4 := f (y + h *: k3)%vec in
  (y + (h / 6) *: (k1 + 2 *: k2 + 2 *: k3 + k4))%vec.

(** The derivative function that [rk4_step] selects for a regime. *)
Definition regime_derivative (constrained : bool)
  (force cart_damp pole_damp : R) : State -> State :=
  if constrained
  then fun st => dynamics_constrained st pole_damp
  else fun st => dynamics_free st force cart_damp pole_damp.

(** ** Call sequences *)

(** The arguments of one controller invocation:
    [(state, t, ref_x, ref_theta)]. *)
Definition CallArgs : Type := State * R * R * R.

(** A run of controller invocations on one object, oldest first: the
    forces returned and the object at the end. *)
Fixpoint controller_run (c : Controller.t) (calls : list CallArgs)
  : list R * Controller.t :=
  match calls with
  | [] => ([], c)
  | (st, t, ref_x, ref_theta) :: rest =>
      let '(u, c') := Controller.call c st t ref_x ref_theta in
      let '(us, c'') := controller_run c' rest in
      (u :: us, c'')
  end.

(** What a call shows of the cart: position, velocity, time and position
    reference, without the angle, its rate and the angle reference. *)
Definition cart_view (a : CallArgs) : R * R * R * R :=
  let '(st, t, ref_x, _) := a in (x st, x_dot st, t, ref_x).

(** The time of a call and the position error it presents. *)
Definition call_time (a : CallArgs) : R :=
  let '(_, t, _, _) := a in t.

Definition call_error (a : CallArgs) : R :=
  let '(st, _, ref_x, _) := a in ref_x - x st.

(** The arguments of one [Metrics.update] call. *)
Record UpdateArgs := mkArgs {
  u_state : State;
  u_t : R;
  u_force : R;
  u_ref_x : R;
  u_ref_theta : R;
  u_dt : R
}.

Definition update_with (m : Metrics.t) (a : UpdateArgs) : Metrics.t :=
  Metrics.update m (u_state a) (u_t a) (u_force a) (u_ref_x a)
                 (u_ref_theta a) (u_dt a).

(** A sequence of [update] calls on one tracker, oldest first. *)
Definition updates (m : Metrics.t) (l : list UpdateArgs) : Metrics.t :=
  fold_left update_with l m.

(** The discrete sum of [|force_i| * dt_i]. *)
Definition impulse_sum (l : list UpdateArgs) : R :=
  fold_right (fun a acc => Rabs (u_force a) * u_dt a + acc) 0 l.

(** Whether the sample of a call is inside the settle band. *)
Definition sample_in_band (a : UpdateArgs) : bool :=
  Metrics.in_band (x (u_state a) - u_ref_x a)
                  (wrap_angle (theta (u_state a) - u_ref_theta a)).

(** The absolute errors that a call presents to the tracker. *)
Definition sample_abs_x_err (a : UpdateArgs) : R :=
  Rabs (x (u_state a) - u_ref_x a).

Definition sample_abs_theta_err (a : UpdateArgs) : R :=
  Rabs (wrap_angle (theta (u_state a) - u_ref_theta a)).

(** The largest of a list of non-negative numbers, 0 for the empty list. *)
Definition max_of (l : list R) : R := fold_right Rmax 0 l.



(** A deque of capacity [maxlen] after the items [l] were appended to it,
    oldest first, starting empty. *)
Definition deque_fill {A : Type} (maxlen : nat) (l : list A) : list A :=
  fold_left (main.deque_append maxlen) l [].

(** The six history deques all hold [n] samples. *)
Definition history_aligned (h : main.History) (n : nat) : Prop :=
  length (main.hist_t h) = n /\ length (main.hist_x h) = n
  /\ length (main.hist_x_dot h) = n /\ length (main.hist_theta h) = n
  /\ length (main.hist_theta_dot h) = n /\ length (main.hist_force h) = n.

(** A simulation whose cart stands half a micrometre short of the upper
    bound, at rest, with the pole upright. *)
Definition sim_below_bound : main.Sim :=
  main.mkSim (mkState (main.x_max_m - 5e-7) 0 0 0) 0 Metrics.init.

(** * Properties *)

(** ** Boolean comparisons reflect the order on [R] *)

Lemma Rleb_true a b : Rleb a b = true <-> a <= b.
Proof. unfold Rleb. destruct (Rle_dec a b); split; intros; easy. Qed.

Lemma Rleb_false a b : Rleb a b = false <-> b < a.
Proof.
  unfold Rleb. destruct (Rle_dec a b); split; intros; try easy; lra.
Qed.

Lemma Rltb_true a b : Rltb a b = true <-> a < b.
Proof. unfold Rltb. destruct (Rlt_dec a b); split; intros; easy. Qed.

Lemma Rltb_false a b : Rltb a b = false <-> b <= a.
Proof.
  unfold Rltb. destruct (Rlt_dec a b); split; intros; try easy; lra.
Qed.

Lemma Rgeb_true a b : Rgeb a b = true <-> a >= b.
Proof. unfold Rgeb. rewrite Rleb_true. lra. Qed.

Lemma Rgeb_false a b : Rgeb a b = false <-> a < b.
Proof. unfold Rgeb. now rewrite Rleb_false. Qed.

Lemma Rgtb_true a b : Rgtb a b = true <-> a > b.
Proof. unfold Rgtb. rewrite Rltb_true. lra. Qed.

Lemma Rgtb_false a b : Rgtb a b = false <-> a <= b.
Proof. unfold Rgtb. now rewrite Rltb_false. Qed.

Lemma py_max_Rmax a b : py_max a b = Rmax a b.
Proof.
  unfold py_max, Rmax. destruct (Rgtb b a) eqn:E.
  - apply Rgtb_true in E. destruct (Rle_dec a b); lra.
  - apply Rgtb_false in E. destruct (Rle_dec a b); lra.
Qed.

Lemma py_max_ge_l a b : a <= py_max a b.
Proof. rewrite py_max_Rmax. apply Rmax_l. Qed.

(** ** The float remainder and [wrap_angle] *)

Lemma float_mod_range a b : 0 < b -> 0 <= float_mod a b < b.
Proof.
  intros Hb. unfold float_mod.
  destruct (Zfloor_bound (a / b)) as [Hlo Hhi].
  assert (Ha : a = a / b * b) by (field; lra).
  split.
  - apply Rmult_le_compat_r with (r := b) in Hlo; lra.
  - apply Rmult_lt_compat_r with (r := b) in Hhi; lra.
Qed.

Lemma float_mod_add_period a b (k : Z) :
  b <> 0 -> float_mod (a + IZR k * b) b = float_mod a b.
Proof.
  intros Hb. unfold float_mod.
  replace ((a + IZR k * b) / b) with (a / b + IZR k) by (field; exact Hb).
  rewrite Zfloor_addz, plus_IZR. ring.
Qed.

Lemma float_mod_small a b : 0 <= a < b -> float_mod a b = a.
Proof.
  intros [Ha Hb]. unfold float_mod.
  rewrite (Zfloor_eq 0).
  - simpl. ring.
  - simpl. split.
    + apply Rmult_le_pos; [lra|]. left. apply Rinv_0_lt_compat. lra.
    + replace (0 + 1) with (b / b) by (field; lra).
      apply Rmult_lt_compat_r; [apply Rinv_0_lt_compat|]; lra.
Qed.

Lemma two_PI_pos : 0 < 2 * PI.
Proof. pose proof PI_RGT_0. lra. Qed.

Lemma wrap_angle_range th : - PI <= wrap_angle th < PI.
Proof.
  unfold wrap_angle.
  pose proof (float_mod_range (th + PI) (2 * PI) two_PI_pos). lra.
Qed.

Lemma wrap_angle_period th (k : Z) :
  wrap_angle (th + 2 * PI * IZR k) = wrap_angle th.
Proof.
  unfold wrap_angle.
  replace (th + 2 * PI * IZR k + PI) with (th + PI + IZR k * (2 * PI)) by ring.
  rewrite float_mod_add_period; [reflexivity|].
  pose proof two_PI_pos. lra.
Qed.

Lemma wrap_angle_fix th : - PI <= th < PI -> wrap_angle th = th.
Proof.
  intros H. unfold wrap_angle. rewrite float_mod_small; lra.
Qed.

Lemma wrap_angle_PI : wrap_angle PI = - PI.
Proof.
  unfold wrap_angle.
  replace (PI + PI) with (0 + IZR 1 * (2 * PI)) by ring.
  rewrite float_mod_add_period by (pose proof two_PI_pos; lra).
  rewrite float_mod_small by (pose proof two_PI_pos; lra). ring.
Qed.

Lemma wrap_angle_0 : wrap_angle 0 = 0.
Proof. apply wrap_angle_fix. pose proof PI_RGT_0. lra. Qed.

(** ** The code on small inputs *)

Example wrap_angle_three_half_pi : wrap_angle (3 * PI / 2) = - PI / 2.
Proof.
  replace (3 * PI / 2) with (- PI / 2 + 2 * PI * IZR 1) by lra.
  rewrite wrap_angle_period. apply wrap_angle_fix.
  pose proof PI_RGT_0. lra.
Qed.

Example dynamics_constrained_upright_rest :
  dynamics_constrained (mkState 2 7 0 0) 0.02 = mkState 0 0 0 0.
Proof.
  unfold dynamics_constrained. rewrite sin_0. f_equal; lra.
Qed.

(** Pushing the cart to the right from rest tips the upright pole to the
    left. *)
Example dynamics_free_upright_push :
  x (dynamics_free (mkState 0 0 0 0) 1.2 0.05 0.02) = 0
  /\ x_dot (dynamics_free (mkState 0 0 0 0) 1.2 0.05 0.02) > 1
  /\ theta_dot (dynamics_free (mkState 0 0 0 0) 1.2 0.05 0.02) < 0.
Proof.
  unfold dynamics_free. rewrite sin_0, cos_0. cbn.
  assert (D : 0 < / (0.5 * (4.0 / 3.0 - 0.2 * (1 * (1 * 1)) / (1.0 + 0.2))
                     + 1e-9))
    by (apply Rinv_0_lt_compat; lra).
  split; [lra|split]; unfold Rdiv; nra.
Qed.

Example clamp_inside : clamp 3 (-50) 50 = 3.
Proof.
  unfold clamp, py_min, py_max.
  replace (Rltb 3 50) with true by (symmetry; apply Rltb_true; lra).
  replace (Rgtb 3 (-50)) with true by (symmetry; apply Rgtb_true; lra).
  reflexivity.
Qed.

Example clamp_above : clamp 80 (-50) 50 = 50.
Proof.
  unfold clamp, py_min, py_max.
  replace (Rltb 80 50) with false by (symmetry; apply Rltb_false; lra).
  replace (Rgtb 50 (-50)) with true by (symmetry; apply Rgtb_true; lra).
  reflexivity.
Qed.

(** ** C2: angle wrapping *)



(** ** C1: the free-motion derivative *)

(** Treat every reciprocal as an opaque number, so that [ring] applies. *)
Ltac name_inverses :=
  repeat match goal with
         | |- context [/ ?e] =>
             let r := fresh "r" in set (r := / e); clearbody r
         end.

Lemma State_eq (a b : State) :
  x a = x b -> x_dot a = x_dot b -> theta a = theta b ->
  theta_dot a = theta_dot b -> a = b.
Proof. destruct a, b; simpl; intros; subst; reflexivity. Qed.

(** C1 (as stated, refuted): upright pole turning at 1 rad/s with pole
    damping 1 and no force.  The code returns [x_dd = 0]; the formula of
    the claim, which feeds the damped angular acceleration into [x_dd],
    gives a nonzero value. *)
Lemma dynamics_free_damped_coupling_fails :
  x_dot (dynamics_free (mkState 0 0 0 1) 0 0 1) = 0
  /\ x_dot (dynamics_free_as_specified (mkState 0 0 0 1) 0 0 1) <> 0
  /\ dynamics_free (mkState 0 0 0 1) 0 0 1
     <> dynamics_free_as_specified (mkState 0 0 0 1) 0 0 1.
Proof.
  assert (A : x_dot (dynamics_free (mkState 0 0 0 1) 0 0 1) = 0).
  { simpl. rewrite sin_0, cos_0. lra. }
  assert (B : x_dot (dynamics_free_as_specified (mkState 0 0 0 1) 0 0 1)
              <> 0).
  { simpl. rewrite sin_0, cos_0. lra. }
  repeat split; trivial.
  intros E. rewrite E in A. contradiction.
Qed.

(** C1 (amended): [dynamics_free] returns
    [(x_dot, x_dd, theta_dot, theta_dd)] with [force_eff], [temp], [denom]
    and [damping_term] as in the claim,
    [theta_dd = (g*sin(theta) - cos(theta)*temp)/(denom+eps) + damping_term],
    and [x_dd = temp - m*l*theta_dd0*cos(theta)/(M+m)] where
    [theta_dd0 = (g*sin(theta) - cos(theta)*temp)/(denom+eps)] is the
    angular acceleration without the damping term.  The [x_dd] of the
    claim differs from it by [- m*l*damping_term*cos(theta)/(M+m)]. *)
Theorem dynamics_free_formula (state : State) (force cart_damp pole_damp : R) :
  let eps := 1e-9 in
  let M := params.M P in
  let m := params.m P in
  let l := params.l P in
  let g := params.g P in
  let s := sin (theta state) in
  let c := cos (theta state) in
  let force_eff := force - cart_damp * x_dot state in
  let temp := (force_eff + m * l * theta_dot state ^ 2 * s) / (M + m) in
  let denom := l * (4 / 3 - m * c ^ 2 / (M + m)) in
  let damping_term := (- pole_damp * theta_dot state) / (m * l ^ 2 + eps) in
  let theta_dd0 := (g * s - c * temp) / (denom + eps) in
  let theta_dd := theta_dd0 + damping_term in
  let x_dd := temp - m * l * theta_dd0 * c / (M + m) in
  dynamics_free state force cart_damp pole_damp
  = mkState (x_dot state) x_dd (theta_dot state) theta_dd
  /\ x_dot (dynamics_free_as_specified state force cart_damp pole_damp)
     = x_dd - m * l * damping_term * c / (M + m).
Proof.
  destruct state as [x0 v0 th0 w0].
  unfold dynamics_free, dynamics_free_as_specified.
  cbv zeta. cbn [x x_dot theta theta_dot].
  replace (4.0 / 3.0) with (4 / 3) by lra.
  split; [|unfold Rdiv; name_inverses; ring].
  apply State_eq; cbn [x x_dot theta theta_dot]; try reflexivity; ring.
Qed.

(** ** C3 and C10: the integrator *)

Lemma half_step_scale (h : R) (k : State) :
  ((0.5 * h) *: k)%vec = ((h / 2) *: k)%vec.
Proof. unfold smul. f_equal; lra. Qed.

Lemma sixth_step_scale (h : R) (k : State) :
  ((h / 6.0) *: k)%vec = ((h / 6) *: k)%vec.
Proof. unfold smul. f_equal; lra. Qed.

Lemma rk4_step_unfold state force dt constrained cart_damp pole_damp :
  rk4_step state force dt constrained cart_damp pole_damp
  = let nxt :=
      classic_rk4 (regime_derivative constrained force cart_damp pole_damp)
                  state dt in
    set_theta nxt (wrap_angle (theta nxt)).
Proof.
  unfold rk4_step, classic_rk4, regime_derivative. cbv zeta.
  rewrite !half_step_scale, sixth_step_scale. reflexivity.
Qed.

Lemma dynamics_constrained_x st pole_damp :
  x (dynamics_constrained st pole_damp) = 0.
Proof. destruct st. simpl. lra. Qed.

Lemma dynamics_constrained_x_dot st pole_damp :
  x_dot (dynamics_constrained st pole_damp) = 0.
Proof. destruct st. simpl. lra. Qed.

Lemma classic_rk4_x f y h :
  x (classic_rk4 f y h)
  = x y + h / 6 * (x (f y)
                   + 2 * x (f (y + (h / 2) *: f y)%vec)
                   + 2 * x (f (y + (h / 2)
                                   *: f (y + (h / 2) *: f y))%vec)
                   + x (f (y + h *: f (y + (h / 2)
                                   *: f (y + (h / 2) *: f y)))%vec)).
Proof. reflexivity. Qed.

Lemma classic_rk4_x_dot f y h :
  x_dot (classic_rk4 f y h)
  = x_dot y + h / 6 * (x_dot (f y)
                   + 2 * x_dot (f (y + (h / 2) *: f y)%vec)
                   + 2 * x_dot (f (y + (h / 2)
                                   *: f (y + (h / 2) *: f y))%vec)
                   + x_dot (f (y + h *: f (y + (h / 2)
                                   *: f (y + (h / 2) *: f y)))%vec)).
Proof. reflexivity. Qed.

(** C3 (as stated, refuted): the claim puts the returned [theta] in
    (-pi, pi].  With [dt = 0] the update leaves [theta = pi] in place and
    the wrap sends it to [-pi], which is outside that interval. *)
Lemma rk4_step_theta_open_left_fails :
  theta (rk4_step (mkState 0 0 PI 0) 0 0 true 0 0) = - PI
  /\ ~ (- PI < theta (rk4_step (mkState 0 0 PI 0) 0 0 true 0 0) <= PI).
Proof.
  assert (E : theta (rk4_step (mkState 0 0 PI 0) 0 0 true 0 0) = - PI).
  { rewrite rk4_step_unfold. cbv zeta. unfold set_theta.
    cbn [theta]. rewrite <- wrap_angle_PI. f_equal.
    unfold classic_rk4. cbv zeta. cbn [theta vadd smul]. lra. }
  split; [exact E|]. rewrite E. lra.
Qed.

(** C3 (amended): for every state, force, [dt], damping values and either
    regime flag, [rk4_step] is the classic four-stage Runge-Kutta update
    (stages at [state], [state + dt/2*k1], [state + dt/2*k2],
    [state + dt*k3], combined as [state + dt/6*(k1 + 2*k2 + 2*k3 + k4)]),
    one combination for both regimes with only the derivative function
    differing, followed by wrapping [theta]; the other three components
    are those of the Runge-Kutta update; and the returned [theta] lies in
    the closed interval [-pi, pi], the lower end being attained. *)
Theorem rk4_step_classic (state : State) (force dt : R) (constrained : bool)
  (cart_damp pole_damp : R) :
  let f := regime_derivative constrained force cart_damp pole_damp in
  let nxt := classic_rk4 f state dt in
  rk4_step state force dt constrained cart_damp pole_damp
  = mkState (x nxt) (x_dot nxt) (wrap_angle (theta nxt)) (theta_dot nxt)
  /\ - PI <= theta (rk4_step state force dt constrained cart_damp pole_damp)
     <= PI.
Proof.
  intros f nxt. rewrite rk4_step_unfold. cbv zeta. fold f. fold nxt.
  split; [reflexivity|]. unfold set_theta. cbn [theta].
  pose proof (wrap_angle_range (theta nxt)). lra.
Qed.

Lemma rk4_step_constrained_frame_aux (state : State) (force dt : R)
  (cart_damp pole_damp : R) :
  x (rk4_step state force dt true cart_damp pole_damp) = x state
  /\ x_dot (rk4_step state force dt true cart_damp pole_damp) = x_dot state.
Proof.
  rewrite rk4_step_unfold. cbv zeta. unfold set_theta. cbn [x x_dot].
  rewrite classic_rk4_x, classic_rk4_x_dot.
  unfold regime_derivative.
  rewrite !dynamics_constrained_x, !dynamics_constrained_x_dot.
  split; lra.
Qed.

(** C10: with [constrained = True], [rk4_step] returns the input's [x] and
    [x_dot] unchanged, for every state, [dt], force and damping values. *)
Theorem rk4_step_constrained_frame (state : State) (force dt : R)
  (cart_damp pole_damp : R) :
  x (rk4_step state force dt true cart_damp pole_damp) = x state
  /\ x_dot (rk4_step state force dt true cart_damp pole_damp) = x_dot state.
Proof. apply rk4_step_constrained_frame_aux. Qed.

(** ** C5, C8, C9: the controller *)

(** C5: one call computes [dt = t - prev_t], stores [t] in [prev_t], adds
    [x_err * dt] with [x_err = ref_x - x] to the integral, and returns
    [u = k_p*x_err + k_i*integral - k_d*x_dot] with the updated integral;
    the value is returned as computed, with no clamping. *)
Theorem controller_call_law (c : Controller.t) (state : State)
  (t ref_x ref_theta : R) :
  let dt := t - Controller.prev_t c in
  let x_err := ref_x - x state in
  let integral := Controller.x_err_i c + x_err * dt in
  Controller.call c state t ref_x ref_theta
  = (Controller.k_p c * x_err + Controller.k_i c * integral
     - Controller.k_d c * x_dot state,
     Controller.mk (Controller.k_p c) (Controller.k_i c) (Controller.k_d c)
                   integral t).
Proof.
  intros dt x_err integral. unfold Controller.call. cbv zeta.
  cbn [Controller.k_p Controller.k_i Controller.k_d
       Controller.x_err_i Controller.prev_t].
  fold dt. fold x_err. fold integral. f_equal. lra.
Qed.

(** The returned force can exceed the actuator limit [P.max_force]: the
    default controller one hundred metres from its reference. *)
Example controller_call_exceeds_max_force :
  fst (Controller.call Controller.init (mkState (-100) 0 0 0) 0 0 0)
  > params.max_force P.
Proof. simpl. lra. Qed.

Lemma call_keeps_gains c state t ref_x ref_theta :
  let c' := snd (Controller.call c state t ref_x ref_theta) in
  Controller.k_p c' = Controller.k_p c
  /\ Controller.k_i c' = Controller.k_i c
  /\ Controller.k_d c' = Controller.k_d c.
Proof. cbn. repeat split. Qed.

Lemma run_keeps_gains calls : forall c,
  let c' := snd (controller_run c calls) in
  Controller.k_p c' = Controller.k_p c
  /\ Controller.k_i c' = Controller.k_i c
  /\ Controller.k_d c' = Controller.k_d c.
Proof.
  induction calls as [|[[[st t] ref_x] ref_theta] rest IH]; intros c.
  - cbn. repeat split.
  - cbn [controller_run].
    destruct (Controller.call c st t ref_x ref_theta) as [u c1] eqn:E1.
    pose proof (call_keeps_gains c st t ref_x ref_theta) as G1.
    rewrite E1 in G1. cbn [snd] in G1.
    specialize (IH c1).
    destruct (controller_run c1 rest) as [us c2].
    cbn [snd] in *. cbv zeta in *.
    destruct G1 as (Gp & Gi & Gd). rewrite <- Gp, <- Gi, <- Gd. exact IH.
Qed.

(** [reset] leaves exactly a fresh object carrying the same gains. *)
Lemma reset_is_fresh c :
  Controller.reset c
  = Controller.set_gains Controller.init (Controller.k_p c)
                         (Controller.k_i c) (Controller.k_d c).
Proof. reflexivity. Qed.

(** C8: take any controller, let it accumulate an integral and a
    [prev_t] through any prior calls, and reset it.  The next call returns
    the same force (and leaves the same internal state) as the first call
    of a freshly constructed controller given the same gains and the same
    call arguments. *)
Theorem controller_reset_fresh (c0 : Controller.t) (history : list CallArgs)
  (state : State) (t ref_x ref_theta : R) :
  let c := snd (controller_run c0 history) in
  let fresh :=
    Controller.set_gains Controller.init (Controller.k_p c0)
                         (Controller.k_i c0) (Controller.k_d c0) in
  Controller.call (Controller.reset c) state t ref_x ref_theta
  = Controller.call fresh state t ref_x ref_theta.
Proof.
  intros c fresh. rewrite reset_is_fresh.
  destruct (run_keeps_gains history c0) as (Ep & Ei & Ed).
  fold c in Ep, Ei, Ed. rewrite Ep, Ei, Ed. reflexivity.
Qed.

(** Without the reset the accumulated integral and the stale [prev_t] do
    show in the next force: one call at [t = 2] with the cart a metre off,
    then a call at [t = 0], as after a restart of the clock, with the cart
    on its reference. *)
Example controller_reset_matters :
  let c := snd (controller_run Controller.init [(mkState 1 0 0 0, 2, 0, 0)]) in
  Controller.x_err_i c = -2 /\ Controller.prev_t c = 2
  /\ fst (Controller.call c (mkState 0 0 0 0) 0 0 0) = -4
  /\ fst (Controller.call (Controller.reset c) (mkState 0 0 0 0) 0 0 0) = 0.
Proof. cbn. repeat split; lra. Qed.

Lemma call_cart_view c (a1 a2 : CallArgs) :
  cart_view a1 = cart_view a2 ->
  (let '(st, t, ref_x, ref_theta) := a1 in
   Controller.call c st t ref_x ref_theta)
  = (let '(st, t, ref_x, ref_theta) := a2 in
     Controller.call c st t ref_x ref_theta).
Proof.
  destruct a1 as [[[st1 t1] rx1] rth1], a2 as [[[st2 t2] rx2] rth2].
  unfold cart_view. intros E. injection E as Ex Ev Et Er.
  unfold Controller.call. cbv zeta. rewrite Ex, Ev, Et, Er. reflexivity.
Qed.

Lemma run_cart_view calls1 : forall c calls2,
  map cart_view calls1 = map cart_view calls2 ->
  controller_run c calls1 = controller_run c calls2.
Proof.
  induction calls1 as [|a1 rest1 IH]; intros c [|a2 rest2] E;
    try discriminate E; [reflexivity|].
  cbn [map] in E. injection E as Ea Erest.
  pose proof (call_cart_view c a1 a2 Ea) as Ecall.
  destruct a1 as [[[st1 t1] rx1] rth1], a2 as [[[st2 t2] rx2] rth2].
  cbn [controller_run]. rewrite Ecall.
  destruct (Controller.call c st2 t2 rx2 rth2) as [u c1].
  rewrite (IH c1 rest2 Erest). reflexivity.
Qed.

(** C9: two calls that agree on [x], [x_dot], [t] and [ref_x] return the
    same force and end in the same internal state, whatever [theta],
    [theta_dot] and [ref_theta] are; and so do two whole runs of calls
    that agree call by call on those four values. *)
Theorem controller_ignores_angle (c : Controller.t)
  (x0 v0 t ref_x : R) (th1 w1 ref_theta1 th2 w2 ref_theta2 : R) :
  Controller.call c (mkState x0 v0 th1 w1) t ref_x ref_theta1
  = Controller.call c (mkState x0 v0 th2 w2) t ref_x ref_theta2
  /\ (forall calls1 calls2 : list CallArgs,
        map cart_view calls1 = map cart_view calls2 ->
        controller_run c calls1 = controller_run c calls2).
Proof.
  split.
  - apply (call_cart_view c (mkState x0 v0 th1 w1, t, ref_x, ref_theta1)
             (mkState x0 v0 th2 w2, t, ref_x, ref_theta2)).
    reflexivity.
  - intros calls1 calls2. apply run_cart_view.
Qed.

(** Two runs of two calls each, equal on the cart and different in every
    angle value. *)
Lemma controller_ignores_angle_witness :
  controller_run Controller.init
    [(mkState 1 0 0.1 0.2, 1, 0, 0); (mkState 0.5 (-1) 0.3 0, 2, 0, 0)]
  = controller_run Controller.init
    [(mkState 1 0 (-3) 5, 1, 0, 1); (mkState 0.5 (-1) 2 7, 2, 0, (-1))].
Proof.
  apply (controller_ignores_angle Controller.init 0 0 0 0 0 0 0 0 0 0).
  reflexivity.
Defined.

(** ** C6, C7: the metrics tracker *)

(** Every path through the settle logic of [update]. *)
Ltac update_paths m :=
  unfold update_with, Metrics.update; cbv zeta;
  destruct (Metrics.settle_time m);
    [|destruct (Metrics.in_band _ _);
      [destruct (Metrics._in_band_since m); [destruct (Rgeb _ _)|]|]].

Lemma update_max_abs_theta m a :
  Metrics.max_abs_theta m <= Metrics.max_abs_theta (update_with m a).
Proof.
  update_paths m;
    cbn [Metrics.max_abs_theta]; apply py_max_ge_l.
Qed.

Lemma update_max_abs_x_dev m a :
  Metrics.max_abs_x_dev m <= Metrics.max_abs_x_dev (update_with m a).
Proof.
  update_paths m;
    cbn [Metrics.max_abs_x_dev]; apply py_max_ge_l.
Qed.

Lemma update_energy m a :
  Metrics.energy_abs_impulse (update_with m a)
  = Metrics.energy_abs_impulse m + Rabs (u_force a) * u_dt a.
Proof.
  update_paths m;
    reflexivity.
Qed.

Lemma updates_app m l1 l2 : updates m (l1 ++ l2) = updates (updates m l1) l2.
Proof. apply fold_left_app. Qed.

Lemma updates_max_abs_theta l : forall m,
  Metrics.max_abs_theta m <= Metrics.max_abs_theta (updates m l).
Proof.
  induction l as [|a l IH]; intros m; simpl; [lra|].
  eapply Rle_trans; [apply (update_max_abs_theta m a)|apply IH].
Qed.

Lemma updates_max_abs_x_dev l : forall m,
  Metrics.max_abs_x_dev m <= Metrics.max_abs_x_dev (updates m l).
Proof.
  induction l as [|a l IH]; intros m; simpl; [lra|].
  eapply Rle_trans; [apply (update_max_abs_x_dev m a)|apply IH].
Qed.

Lemma updates_energy l : forall m,
  Metrics.energy_abs_impulse (updates m l)
  = Metrics.energy_abs_impulse m + impulse_sum l.
Proof.
  induction l as [|a l IH]; intros m; simpl; [lra|].
  rewrite IH, update_energy. lra.
Qed.

Lemma impulse_sum_nonneg l :
  Forall (fun a => 0 <= u_dt a) l -> 0 <= impulse_sum l.
Proof.
  induction 1 as [|a l Ha _ IH]; simpl; [lra|].
  pose proof (Rabs_pos (u_force a)).
  pose proof (Rmult_le_pos _ _ H Ha). lra.
Qed.

(** The step [dt] is the caller's to keep non-negative (the sub-step loop
    passes [P.dt = 1/240]); [update] does not check it.  Called against
    that contract with force 1 and [dt = -1], it takes the impulse from 0
    to -1, so the hypothesis on [dt] below cannot be dropped. *)
Lemma energy_abs_impulse_can_decrease :
  Metrics.energy_abs_impulse
    (update_with (Metrics.reset Metrics.init)
                 (mkArgs (mkState 0 0 0 0) 0 1 0 0 (-1))) = -1
  /\ ~ (Metrics.energy_abs_impulse (Metrics.reset Metrics.init)
        <= Metrics.energy_abs_impulse
             (update_with (Metrics.reset Metrics.init)
                          (mkArgs (mkState 0 0 0 0) 0 1 0 0 (-1)))).
Proof.
  rewrite update_energy. cbn. rewrite Rabs_R1. split; lra.
Qed.

(** C7: over every sequence of updates, [max_abs_theta] and
    [max_abs_x_dev] are non-decreasing; [energy_abs_impulse] grows by the
    discrete sum of [|force_i| * dt_i], so after a reset it equals that
    sum over the updates performed since; and it is non-decreasing, every
    step [dt_i] being non-negative as the caller guarantees. *)
Theorem metrics_monotone (m : Metrics.t) (l : list UpdateArgs) :
  Metrics.max_abs_theta m <= Metrics.max_abs_theta (updates m l)
  /\ Metrics.max_abs_x_dev m <= Metrics.max_abs_x_dev (updates m l)
  /\ Metrics.energy_abs_impulse (updates m l)
     = Metrics.energy_abs_impulse m + impulse_sum l
  /\ Metrics.energy_abs_impulse (updates (Metrics.reset m) l)
     = impulse_sum l
  /\ (Forall (fun a => 0 <= u_dt a) l ->
      Metrics.energy_abs_impulse m
      <= Metrics.energy_abs_impulse (updates m l)).
Proof.
  repeat split.
  - apply updates_max_abs_theta.
  - apply updates_max_abs_x_dev.
  - apply updates_energy.
  - rewrite updates_energy. cbn. lra.
  - intros Hdt. rewrite updates_energy.
    pose proof (impulse_sum_nonneg l Hdt). lra.
Qed.

(** Two updates with the default step from a fresh tracker. *)
Lemma metrics_monotone_witness :
  Metrics.energy_abs_impulse Metrics.init
  <= Metrics.energy_abs_impulse
       (updates Metrics.init
          [mkArgs (mkState 0 0 0.15 0) (1/240) 3 0 0 (1/240);
           mkArgs (mkState 0 0 0.15 0) (2/240) (-3) 0 0 (1/240)]).
Proof.
  apply (metrics_monotone Metrics.init).
  repeat constructor; cbn; lra.
Defined.

(** *** The hold timer *)

Lemma update_settled m a s :
  Metrics.settle_time m = Some s ->
  Metrics.settle_time (update_with m a) = Some s.
Proof.
  intros H. unfold update_with, Metrics.update. cbv zeta.
  rewrite H. reflexivity.
Qed.

Lemma updates_settled l : forall m s,
  Metrics.settle_time m = Some s ->
  Metrics.settle_time (updates m l) = Some s.
Proof.
  induction l as [|a l IH]; intros m s H; simpl; [exact H|].
  apply IH, update_settled, H.
Qed.

Lemma update_excursion m a :
  Metrics.settle_time m = None -> sample_in_band a = false ->
  Metrics.settle_time (update_with m a) = None
  /\ Metrics._in_band_since (update_with m a) = None.
Proof.
  intros Hs Hb. unfold update_with, Metrics.update. cbv zeta.
  unfold sample_in_band in Hb. rewrite Hs, Hb. split; reflexivity.
Qed.

Lemma update_enter m a :
  Metrics.settle_time m = None -> Metrics._in_band_since m = None ->
  sample_in_band a = true ->
  Metrics.settle_time (update_with m a) = None
  /\ Metrics._in_band_since (update_with m a) = Some (u_t a).
Proof.
  intros Hs Hm Hb. unfold update_with, Metrics.update. cbv zeta.
  unfold sample_in_band in Hb. rewrite Hs, Hb, Hm. split; reflexivity.
Qed.

Lemma update_hold_short m a since :
  Metrics.settle_time m = None -> Metrics._in_band_since m = Some since ->
  sample_in_band a = true ->
  u_t a - since < params.settle_hold_time P ->
  Metrics.settle_time (update_with m a) = None
  /\ Metrics._in_band_since (update_with m a) = Some since.
Proof.
  intros Hs Hm Hb Ht. unfold update_with, Metrics.update. cbv zeta.
  unfold sample_in_band in Hb. rewrite Hs, Hb, Hm.
  apply Rgeb_false in Ht. rewrite Ht. split; reflexivity.
Qed.

Lemma update_hold_done m a since :
  Metrics.settle_time m = None -> Metrics._in_band_since m = Some since ->
  sample_in_band a = true ->
  u_t a - since >= params.settle_hold_time P ->
  Metrics.settle_time (update_with m a) = Some since.
Proof.
  intros Hs Hm Hb Ht. unfold update_with, Metrics.update. cbv zeta.
  unfold sample_in_band in Hb. rewrite Hs, Hb, Hm.
  apply Rgeb_true in Ht. rewrite Ht. reflexivity.
Qed.

(** A run inside the band that is too short leaves the marker in place. *)
Lemma updates_hold_short l : forall m since,
  Metrics.settle_time m = None -> Metrics._in_band_since m = Some since ->
  Forall (fun a => sample_in_band a = true) l ->
  Forall (fun a => u_t a - since < params.settle_hold_time P) l ->
  Metrics.settle_time (updates m l) = None
  /\ Metrics._in_band_since (updates m l) = Some since.
Proof.
  induction l as [|a l IH]; intros m since Hs Hm Hb Ht; simpl; [easy|].
  inversion Hb; inversion Ht; subst.
  destruct (update_hold_short m a since) as [Hs' Hm']; trivial.
  apply IH; trivial.
Qed.

(** An excursion, however long, ends with the marker cleared. *)
Lemma updates_excursion l : forall m a,
  Metrics.settle_time m = None ->
  Forall (fun a => sample_in_band a = false) (a :: l) ->
  Metrics.settle_time (updates m (a :: l)) = None
  /\ Metrics._in_band_since (updates m (a :: l)) = None.
Proof.
  induction l as [|b l IH]; intros m a Hs Hb; inversion Hb; subst.
  - simpl. apply update_excursion; trivial.
  - change (updates m (a :: b :: l))
      with (updates (update_with m a) (b :: l)).
    apply IH; trivial. apply update_excursion; trivial.
Qed.

(** A run inside the band that reaches the hold time records the marker. *)
Lemma updates_hold_done l : forall m since,
  Metrics.settle_time m = None -> Metrics._in_band_since m = Some since ->
  Forall (fun a => sample_in_band a = true) l ->
  Exists (fun a => u_t a - since >= params.settle_hold_time P) l ->
  Metrics.settle_time (updates m l) = Some since.
Proof.
  induction l as [|a l IH]; intros m since Hs Hm Hb Ht; simpl;
    [inversion Ht|].
  inversion Hb; subst.
  destruct (Rge_dec (u_t a - since) (params.settle_hold_time P)) as [Hge|Hlt].
  - apply updates_settled, update_hold_done; trivial.
  - destruct (update_hold_short m a since) as [Hs' Hm']; trivial; [lra|].
    apply IH; trivial. inversion Ht; subst; [contradiction|trivial].
Qed.

(** C6: with the hold requirement of 1.0 s, a trajectory that enters the
    band at [t = 5.0] and stays in it for less than the hold time (0.6 s,
    say), then leaves it, then re-enters at [t = 7.0] and stays in it
    until at least [t = 8.0], ends with [settle_time = 7.0] and not [5.0];
    the excursion leaves the band-entry marker cleared. *)
Theorem settle_hysteresis (m0 : Metrics.t)
  (a1 : UpdateArgs) (run1 : list UpdateArgs)
  (b : UpdateArgs) (exc : list UpdateArgs)
  (a2 : UpdateArgs) (run2 : list UpdateArgs) :
  Metrics.settle_time m0 = None -> Metrics._in_band_since m0 = None ->
  u_t a1 = 5.0 ->
  Forall (fun a => sample_in_band a = true) (a1 :: run1) ->
  Forall (fun a => u_t a - 5.0 < params.settle_hold_time P) run1 ->
  Forall (fun a => sample_in_band a = false) (b :: exc) ->
  u_t a2 = 7.0 ->
  Forall (fun a => sample_in_band a = true) (a2 :: run2) ->
  Exists (fun a => u_t a - 7.0 >= 1.0) run2 ->
  params.settle_hold_time P = 1.0
  /\ Metrics._in_band_since (updates m0 ((a1 :: run1) ++ (b :: exc))) = None
  /\ Metrics.settle_time
       (updates m0 ((a1 :: run1) ++ (b :: exc) ++ (a2 :: run2))) = Some 7.0
  /\ Metrics.settle_time
       (updates m0 ((a1 :: run1) ++ (b :: exc) ++ (a2 :: run2))) <> Some 5.0.
Proof.
  intros Hs0 Hm0 Ht1 Hin1 Hshort Hout Ht2 Hin2 Hlong.
  inversion Hin1 as [|? ? Ha1 Hrun1]; subst.
  inversion Hin2 as [|? ? Ha2 Hrun2]; subst.
  destruct (update_enter m0 a1 Hs0 Hm0 Ha1) as [Hs1 Hm1].
  rewrite Ht1 in Hm1.
  destruct (updates_hold_short run1 _ _ Hs1 Hm1 Hrun1 Hshort) as [Hs2 Hm2].
  change (updates (update_with m0 a1) run1)
    with (updates m0 (a1 :: run1)) in Hs2, Hm2.
  destruct (updates_excursion exc _ b Hs2 Hout) as [Hs3 Hm3].
  rewrite <- updates_app in Hs3, Hm3.
  assert (E : Metrics.settle_time
                (updates m0 ((a1 :: run1) ++ (b :: exc) ++ a2 :: run2))
              = Some 7.0).
  { rewrite app_assoc, updates_app.
    set (m3 := updates m0 ((a1 :: run1) ++ b :: exc)) in *.
    destruct (update_enter m3 a2 Hs3 Hm3 Ha2) as [Hs4 Hm4].
    rewrite Ht2 in Hm4.
    change (updates m3 (a2 :: run2)) with (updates (update_with m3 a2) run2).
    apply updates_hold_done; trivial. }
  repeat split; trivial.
  rewrite E. intros C. inversion C. lra.
Qed.

Lemma origin_in_band t dt :
  sample_in_band (mkArgs (mkState 0 0 0 0) t 0 0 0 dt) = true.
Proof.
  unfold sample_in_band, Metrics.in_band. cbn.
  replace (0 - 0) with 0 by ring. rewrite wrap_angle_0, Rabs_R0.
  apply andb_true_iff. split; apply Rleb_true; [lra|].
  unfold params.radians. pose proof PI_RGT_0. lra.
Qed.

Lemma off_track_out_of_band t dt :
  sample_in_band (mkArgs (mkState 1 0 0 0) t 0 0 0 dt) = false.
Proof.
  unfold sample_in_band, Metrics.in_band. cbn.
  replace (1 - 0) with 1 by ring. rewrite Rabs_R1.
  apply andb_false_iff. left. apply Rleb_false. lra.
Qed.

(** Samples at 5.0, 5.3, 5.6 inside the band, 6.0 and 6.5 outside, then
    7.0, 7.5 and 8.0 inside. *)
Lemma settle_hysteresis_witness :
  Metrics.settle_time
    (updates Metrics.init
       ([mkArgs (mkState 0 0 0 0) 5.0 0 0 0 0.3;
         mkArgs (mkState 0 0 0 0) 5.3 0 0 0 0.3;
         mkArgs (mkState 0 0 0 0) 5.6 0 0 0 0.3]
        ++ [mkArgs (mkState 1 0 0 0) 6.0 0 0 0 0.4;
            mkArgs (mkState 1 0 0 0) 6.5 0 0 0 0.5]
        ++ [mkArgs (mkState 0 0 0 0) 7.0 0 0 0 0.5;
            mkArgs (mkState 0 0 0 0) 7.5 0 0 0 0.5;
            mkArgs (mkState 0 0 0 0) 8.0 0 0 0 0.5])) = Some 7.0.
Proof.
  apply (settle_hysteresis Metrics.init);
    try reflexivity;
    repeat first [apply Forall_cons | apply Forall_nil
                 | apply origin_in_band | apply off_track_out_of_band];
    cbn; try lra.
  apply Exists_cons_tl, Exists_cons_hd. cbn. lra.
Defined.

(** ** C4: the wall constraint in the sub-step loop *)

Lemma cart_w_value : main.cart_w = 93%Z.
Proof.
  unfold main.cart_w, main.float_to_int, main.ppm. cbn.
  replace (Rleb 0 (0.55 * 170.0)) with true
    by (symmetry; apply Rleb_true; lra).
  apply Zfloor_eq. simpl. lra.
Qed.

Lemma x_max_m_value : main.x_max_m = 742 / 170.
Proof.
  unfold main.x_max_m, main.x_max_px, main.W, main.ppm.
  rewrite cart_w_value. cbn. lra.
Qed.

Lemma x_min_m_value : main.x_min_m = - 742 / 170.
Proof.
  unfold main.x_min_m, main.x_min_px, main.W, main.ppm.
  rewrite cart_w_value. cbn. lra.
Qed.

(** The clamp before integrating, for a cart in contact with the upper
    bound: it moves [x] only when [x] is at or beyond the bound. *)
Lemma pre_clamp_right st :
  x st >= main.x_max_m - 1e-6 ->
  x (main.pre_clamp st) = Rmin (x st) main.x_max_m
  /\ x_dot (main.pre_clamp st) = 0.
Proof.
  intros Hx. unfold main.pre_clamp. cbv zeta.
  pose proof x_max_m_value as Emax. pose proof x_min_m_value as Emin.
  replace (Rleb (x st) main.x_min_m) with false
    by (symmetry; apply Rleb_false; lra).
  destruct (Rgeb (x st) main.x_max_m) eqn:E.
  - apply Rgeb_true in E. cbn. rewrite Rmin_right by lra. lra.
  - apply Rgeb_false in E. cbn. rewrite Rmin_left by lra. lra.
Qed.

Lemma safety_clamp_inside st :
  main.x_min_m <= x st <= main.x_max_m -> main.safety_clamp st = st.
Proof.
  intros [Hlo Hhi]. unfold main.safety_clamp.
  replace (Rltb (x st) main.x_min_m) with false
    by (symmetry; apply Rltb_false; lra).
  replace (Rgtb (x st) main.x_max_m) with false
    by (symmetry; apply Rgtb_false; lra).
  reflexivity.
Qed.

(** A frame in which the total force pushes towards the upper bound. *)
Section PushedRight.

Variables f_total ref_x ref_theta cart_damp pole_damp : R.
Hypothesis pushing_right : f_total > 0.

Let step := main.substep f_total ref_x ref_theta cart_damp pole_damp.
Let loop n :=
  main.substeps_loop n f_total ref_x ref_theta cart_damp pole_damp.

Lemma constraint_flag_right st :
  x st >= main.x_max_m - 1e-6 -> main.constraint_flag st f_total = true.
Proof.
  intros Hx. unfold main.constraint_flag. cbv zeta.
  replace (Rgeb (x st) (main.x_max_m - 1e-6)) with true
    by (symmetry; apply Rgeb_true; exact Hx).
  replace (Rgtb f_total 0.0) with true
    by (symmetry; apply Rgtb_true; lra).
  apply orb_true_r.
Qed.

Lemma substep_right s :
  x (main.sim_state s) >= main.x_max_m - 1e-6 ->
  x (main.sim_state (step s)) = Rmin (x (main.sim_state s)) main.x_max_m
  /\ x_dot (main.sim_state (step s)) = 0.
Proof.
  intros Hx. unfold step, main.substep. cbv zeta. cbn [main.sim_state].
  rewrite (constraint_flag_right _ Hx).
  destruct (pre_clamp_right _ Hx) as [Hpx Hpv].
  destruct (rk4_step_constrained_frame_aux (main.pre_clamp (main.sim_state s))
              f_total (params.dt P) cart_damp pole_damp) as [Hrx Hrv].
  rewrite safety_clamp_inside; rewrite ?Hrx, ?Hrv, ?Hpx; [easy|].
  pose proof x_max_m_value. pose proof x_min_m_value.
  unfold Rmin. destruct (Rle_dec _ _); lra.
Qed.

(** Contact persists: the result of a sub-step is again in contact. *)
Lemma substep_right_contact s :
  x (main.sim_state s) >= main.x_max_m - 1e-6 ->
  x (main.sim_state (step s)) >= main.x_max_m - 1e-6.
Proof.
  intros Hx. destruct (substep_right s Hx) as [Hsx _]. rewrite Hsx.
  unfold Rmin. destruct (Rle_dec _ _); lra.
Qed.

Lemma substeps_loop_right n : forall s,
  x (main.sim_state s) >= main.x_max_m - 1e-6 ->
  x (main.sim_state (loop (S n) s))
  = Rmin (x (main.sim_state s)) main.x_max_m
  /\ x_dot (main.sim_state (loop (S n) s)) = 0.
Proof.
  induction n as [|n IH]; intros s Hx.
  - apply substep_right; trivial.
  - change (loop (S (S n)) s) with (loop (S n) (step s)).
    destruct (substep_right s Hx) as [Hsx Hsv].
    destruct (IH _ (substep_right_contact s Hx)) as [Hlx Hlv].
    split; [|exact Hlv].
    rewrite Hlx, Hsx. unfold Rmin.
    repeat destruct (Rle_dec _ _); lra.
Qed.

End PushedRight.

(** C4 (as stated, refuted): a cart half a micrometre short of the upper
    bound satisfies the contact condition [x >= x_max - eps] and is pushed
    with force 1, yet after one sub-step its [x] is still the input [x]
    and not [x_max]: the clamp before integrating tests [x >= x_max]
    without the tolerance. *)
Lemma wall_contact_below_bound_not_snapped :
  x (main.sim_state sim_below_bound) >= main.x_max_m - 1e-6
  /\ 1 > 0
  /\ x (main.sim_state (main.substep 1 0 0 0 0 sim_below_bound))
     = main.x_max_m - 5e-7
  /\ ~ (x (main.sim_state (main.substep 1 0 0 0 0 sim_below_bound))
        = main.x_max_m
        /\ x_dot (main.sim_state (main.substep 1 0 0 0 0 sim_below_bound))
           = 0).
Proof.
  assert (Hx : x (main.sim_state sim_below_bound) >= main.x_max_m - 1e-6)
    by (cbn; lra).
  assert (Hf : 1 > 0) by lra.
  destruct (substep_right 1 0 0 0 0 Hf sim_below_bound Hx) as [Hsx _].
  assert (E : x (main.sim_state (main.substep 1 0 0 0 0 sim_below_bound))
              = main.x_max_m - 5e-7).
  { rewrite Hsx. cbn [main.sim_state x sim_below_bound].
    apply Rmin_left. lra. }
  repeat split; trivial.
  rewrite E. intros [C _]. lra.
Qed.

(** C4 (amended): for every state in contact with the upper bound
    ([x >= x_max - eps]) and every total force [> 0], after one sub-step,
    and after any larger number of sub-steps under the same force,
    [x_dot = 0]; [x = x_max] exactly when the input [x] was at or beyond
    [x_max]; and [x] is the input [x] when that was below [x_max] (within
    [eps] of it).  This holds for every [theta], [theta_dot], reference
    and damping values. *)
Theorem wall_contact_substeps (n : nat)
  (f_total ref_x ref_theta cart_damp pole_damp : R) (s : main.Sim) :
  x (main.sim_state s) >= main.x_max_m - 1e-6 -> f_total > 0 ->
  let s' :=
    main.substeps_loop (S n) f_total ref_x ref_theta cart_damp pole_damp s in
  x_dot (main.sim_state s') = 0
  /\ (x (main.sim_state s) >= main.x_max_m ->
      x (main.sim_state s') = main.x_max_m)
  /\ (x (main.sim_state s) < main.x_max_m ->
      x (main.sim_state s') = x (main.sim_state s)).
Proof.
  intros Hx Hf s'.
  destruct (substeps_loop_right f_total ref_x ref_theta cart_damp pole_damp
              Hf n s Hx) as [Hlx Hlv].
  fold s' in Hlx, Hlv. repeat split; [exact Hlv| |]; intros H; rewrite Hlx.
  - apply Rmin_right. lra.
  - apply Rmin_left. lra.
Qed.

(** The two sub-steps of a frame, for a cart one metre beyond the upper
    bound pushed further with force 10 and the default damping. *)
Lemma wall_contact_substeps_witness :
  x (main.sim_state
       (main.substeps_loop (params.substeps P) 10 0 0
          (params.cart_damping P) (params.pole_damping P)
          (main.mkSim (mkState (main.x_max_m + 1) 0.3 0.15 0) 0
                      Metrics.init)))
  = main.x_max_m.
Proof.
  apply (wall_contact_substeps 1 10 0 0 (params.cart_damping P)
           (params.pole_damping P)
           (main.mkSim (mkState (main.x_max_m + 1) 0.3 0.15 0) 0
                       Metrics.init));
    cbn [main.sim_state x]; lra.
Defined.

(** * Further properties of the code *)

(** ** utils.py: [clamp] *)

Lemma py_min_Rmin a b : py_min a b = Rmin a b.
Proof.
  unfold py_min, Rmin. destruct (Rltb b a) eqn:E.
  - apply Rltb_true in E. destruct (Rle_dec a b); lra.
  - apply Rltb_false in E. destruct (Rle_dec a b); lra.
Qed.

Lemma clamp_Rmax_Rmin v lo hi : clamp v lo hi = Rmax lo (Rmin hi v).
Proof. unfold clamp. now rewrite py_max_Rmax, py_min_Rmin. Qed.

Ltac clamp_cases :=
  rewrite ?clamp_Rmax_Rmin; unfold Rmax, Rmin;
  repeat destruct (Rle_dec _ _); try lra.

Lemma clamp_in_range_aux v lo hi : lo <= hi -> lo <= clamp v lo hi <= hi.
Proof. intros H. clamp_cases. Qed.

(** X1: with [lo <= hi], [clamp] returns a value in [[lo, hi]]; it leaves
    values of that interval untouched, sends smaller ones to [lo] and
    larger ones to [hi], and clamping twice is clamping once. *)
Theorem clamp_in_range (v lo hi : R) :
  lo <= hi ->
  lo <= clamp v lo hi <= hi
  /\ (lo <= v <= hi -> clamp v lo hi = v)
  /\ (v < lo -> clamp v lo hi = lo)
  /\ (hi < v -> clamp v lo hi = hi)
  /\ clamp (clamp v lo hi) lo hi = clamp v lo hi.
Proof.
  intros H. repeat split; intros; clamp_cases.
Qed.

Lemma clamp_in_range_witness : -50 <= clamp 80 (-50) 50 <= 50.
Proof. apply (clamp_in_range 80 (-50) 50). lra. Defined.

(** X2: [clamp] is non-decreasing in [v] and never returns less than [lo],
    whatever the bounds; with inverted bounds ([hi <= lo]) the lower bound
    wins and the result is [lo] for every [v]. *)
Theorem clamp_inverted_bounds (v v' lo hi : R) :
  lo <= clamp v lo hi
  /\ (v <= v' -> clamp v lo hi <= clamp v' lo hi)
  /\ (hi <= lo -> clamp v lo hi = lo).
Proof.
  repeat split; intros; clamp_cases.
Qed.

Lemma clamp_inverted_bounds_witness : clamp 3 5 1 = 5.
Proof. apply (clamp_inverted_bounds 3 3 5 1). lra. Defined.

(** ** utils.py: [mechanical_energy] *)


Lemma cos_period_Z th (k : Z) : cos (th + 2 * PI * IZR k) = cos th.
Proof.
  destruct (Z_le_gt_dec 0 k) as [Hk|Hk].
  - rewrite <- (Z2Nat.id k Hk), <- INR_IZR_INZ.
    replace (th + 2 * PI * INR (Z.to_nat k))
      with (th + 2 * INR (Z.to_nat k) * PI) by ring.
    apply cos_period.
  - assert (Hn : (0 <= - k)%Z) by lia.
    rewrite <- (cos_period (th + 2 * PI * IZR k) (Z.to_nat (- k))).
    rewrite INR_IZR_INZ, (Z2Nat.id _ Hn), opp_IZR. f_equal. ring.
Qed.

Lemma sin2_cos2_pow th : sin th ^ 2 + cos th ^ 2 = 1.
Proof. pose proof (sin2_cos2 th) as H. unfold Rsqr in H. lra. Qed.

(** The energy in closed form: the cross term of the centre-of-mass
    velocity is the only place where the cart and the pole couple. *)
Lemma mechanical_energy_closed_form x0 v th w :
  mechanical_energy (mkState x0 v th w)
  = 0.6 * v ^ 2 + 0.1 * v * w * cos th + (1 / 30) * w ^ 2
    + 0.981 * (1 - cos th).
Proof.
  unfold mechanical_energy. cbn [params.l params.m params.M params.g P].
  pose proof (sin2_cos2_pow th) as H. nra.
Qed.

(** X3: the mechanical energy is never negative, whatever the state
    (the coupling term between cart and pole cannot outweigh the two
    kinetic terms), and it is zero at rest with the pole upright
    ([x_dot = 0], [theta_dot = 0], [cos theta = 1]). *)
Theorem mechanical_energy_nonnegative (state : State) :
  0 <= mechanical_energy state
  /\ (x_dot state = 0 -> theta_dot state = 0 -> cos (theta state) = 1 ->
      mechanical_energy state = 0).
Proof.
  destruct state as [x0 v th w]. cbn [x_dot theta_dot theta].
  rewrite mechanical_energy_closed_form.
  pose proof (COS_bound th) as [Hlo Hhi].
  assert (Hq : 0 <= 0.6 * v ^ 2 + 0.1 * v * w * cos th + 1 / 30 * w ^ 2
               - (0.1 * v ^ 2 + 0.005 * w ^ 2)).
  { assert (HA : 0 <= (v + 0.1 * w * cos th) ^ 2) by (apply pow2_ge_0).
    assert (HW : 0 <= w ^ 2) by apply pow2_ge_0.
    assert (HC : 0 <= 1 - cos th ^ 2) by nra.
    pose proof (Rmult_le_pos _ _ HW HC) as HB.
    replace (0.6 * v ^ 2 + 0.1 * v * w * cos th + 1 / 30 * w ^ 2
             - (0.1 * v ^ 2 + 0.005 * w ^ 2))
      with (0.5 * (v + 0.1 * w * cos th) ^ 2 + (1 / 30 - 0.01) * w ^ 2
            + 0.005 * (w ^ 2 * (1 - cos th ^ 2))) by nra.
    lra. }
  assert (Hv : 0 <= v ^ 2) by apply pow2_ge_0.
  assert (Hw : 0 <= w ^ 2) by apply pow2_ge_0.
  split; [nra|].
  intros -> -> ->. lra.
Qed.

(** Cart and pole at rest at the origin, the pole upright. *)
Lemma mechanical_energy_nonnegative_witness :
  mechanical_energy (mkState 0 0 0 0) = 0.
Proof.
  apply (mechanical_energy_nonnegative (mkState 0 0 0 0));
    cbn [x_dot theta_dot theta]; try reflexivity.
  apply cos_0.
Defined.

(** X4: the mechanical energy does not depend on the cart position, is
    unchanged when [theta] moves by a whole number of turns, and is
    unchanged by the left-right mirror image of the motion. *)
Theorem mechanical_energy_symmetries (x0 x1 v th w : R) (k : Z) :
  mechanical_energy (mkState x1 v (th + 2 * PI * IZR k) w)
  = mechanical_energy (mkState x0 v th w)
  /\ mechanical_energy (mkState (- x0) (- v) (- th) (- w))
     = mechanical_energy (mkState x0 v th w).
Proof.
  rewrite !mechanical_energy_closed_form, cos_period_Z, cos_neg.
  split; ring.
Qed.

(** ** utils.py: [mouse_force] *)

Lemma tanh_as_exp u : tanh u = (exp u - exp (- u)) / (exp u + exp (- u)).
Proof.
  unfold tanh, sinh, cosh.
  pose proof (exp_pos u). pose proof (exp_pos (- u)). field. lra.
Qed.

Lemma tanh_bounds u : -1 < tanh u < 1.
Proof.
  pose proof (exp_pos u) as Ha. pose proof (exp_pos (- u)) as Hb.
  assert (Hd : 0 < exp u + exp (- u)) by lra.
  assert (E1 : 1 - tanh u = 2 * exp (- u) / (exp u + exp (- u)))
    by (rewrite tanh_as_exp; field; lra).
  assert (E2 : 1 + tanh u = 2 * exp u / (exp u + exp (- u)))
    by (rewrite tanh_as_exp; field; lra).
  assert (P1 : 0 < 2 * exp (- u) / (exp u + exp (- u)))
    by (apply Rdiv_lt_0_compat; lra).
  assert (P2 : 0 < 2 * exp u / (exp u + exp (- u)))
    by (apply Rdiv_lt_0_compat; lra).
  lra.
Qed.

Lemma tanh_sign u : 0 <= u * tanh u.
Proof.
  pose proof (exp_pos u) as Ha. pose proof (exp_pos (- u)) as Hb.
  assert (Hd : 0 < / (exp u + exp (- u)))
    by (apply Rinv_0_lt_compat; lra).
  rewrite tanh_as_exp. unfold Rdiv.
  destruct (Rtotal_order u 0) as [Hu|[Hu|Hu]].
  - assert (exp u < exp (- u)) by (apply exp_increasing; lra).
    assert ((exp u - exp (- u)) * / (exp u + exp (- u)) <= 0) by nra.
    nra.
  - subst. lra.
  - assert (exp (- u) < exp u) by (apply exp_increasing; lra).
    assert (0 <= (exp u - exp (- u)) * / (exp u + exp (- u))) by nra.
    nra.
Qed.

Lemma clamp_sign f dx b :
  0 <= b -> 0 <= f * dx -> 0 <= clamp f (- b) b * dx.
Proof.
  intros Hb Hf. rewrite clamp_Rmax_Rmin. unfold Rmax, Rmin.
  destruct (Rtotal_order dx 0) as [Hd|[Hd|Hd]];
    repeat destruct (Rle_dec _ _); subst; try nra.
Qed.

Lemma mouse_force_bounded_aux (cart_x_px mouse_x_px : R)
  (left_down right_down : bool) :
  - params.max_mouse_force P
  <= mouse_force cart_x_px mouse_x_px left_down right_down
  <= params.max_mouse_force P.
Proof.
  unfold mouse_force. cbv zeta.
  destruct (negb (left_down || right_down)); [cbn; lra|].
  apply clamp_in_range_aux. cbn. lra.
Qed.

(** X5: the mouse force is 0 with no button held; with any buttons it
    stays within [[-max_mouse_force, max_mouse_force]] and never pushes
    the cart away from the mouse pointer. *)
Theorem mouse_force_bounded (cart_x_px mouse_x_px : R)
  (left_down right_down : bool) :
  mouse_force cart_x_px mouse_x_px false false = 0
  /\ - params.max_mouse_force P
     <= mouse_force cart_x_px mouse_x_px left_down right_down
     <= params.max_mouse_force P
  /\ 0 <= mouse_force cart_x_px mouse_x_px left_down right_down
          * (mouse_x_px - cart_x_px).
Proof.
  split; [cbn; lra|].
  unfold mouse_force. cbv zeta.
  destruct (negb (left_down || right_down)); [cbn; repeat split; lra|].
  assert (Hf : 0 <= (if left_down
                     then 0.16 * (mouse_x_px - cart_x_px)
                     else 26.0 * tanh ((mouse_x_px - cart_x_px) / 75.0))
                    * (mouse_x_px - cart_x_px)).
  { set (dx := mouse_x_px - cart_x_px).
    destruct left_down.
    - pose proof (Rle_0_sqr dx) as Hsq. unfold Rsqr in Hsq. nra.
    - pose proof (tanh_sign (dx / 75.0)) as Ht.
      set (th := tanh (dx / 75.0)) in *. unfold Rdiv in Ht. nra. }
  split.
  - apply clamp_in_range_aux. cbn. lra.
  - apply clamp_sign; [cbn; lra|exact Hf].
Qed.

Lemma Rabs_le_between a b : Rabs a <= b -> - b <= a <= b.
Proof. unfold Rabs. destruct (Rcase_abs a); lra. Qed.

(** X6: with the left button held (whatever the right button does) the
    force is the spring force [0.16 * dx] as long as the pointer is within
    312.5 pixels of the cart, and the limit of 50 beyond that, on the side
    of the pointer. *)
Theorem mouse_force_left_spring (cart_x_px mouse_x_px : R)
  (right_down : bool) :
  let dx := mouse_x_px - cart_x_px in
  let f := mouse_force cart_x_px mouse_x_px true right_down in
  (Rabs dx <= 312.5 -> f = 0.16 * dx)
  /\ (312.5 <= dx -> f = 50)
  /\ (dx <= -312.5 -> f = -50).
Proof.
  intros dx f. unfold f, mouse_force. cbv zeta. fold dx.
  cbn [negb orb params.max_mouse_force P].
  repeat split; intros H; [apply Rabs_le_between in H| |]; clamp_cases.
Qed.

Lemma mouse_force_left_spring_witness :
  mouse_force 800 900 true false = 0.16 * (900 - 800).
Proof.
  apply (mouse_force_left_spring 800 900 false).
  apply Rabs_le. lra.
Defined.

(** X7: with only the right button held the force is
    [26 * tanh(dx / 75)]: it stays within [-26, 26], well inside the
    limit of 50, so the clamp to [max_mouse_force] never acts on it. *)
Theorem mouse_force_right_shove (cart_x_px mouse_x_px : R) :
  mouse_force cart_x_px mouse_x_px false true
  = 26 * tanh ((mouse_x_px - cart_x_px) / 75)
  /\ -26 <= mouse_force cart_x_px mouse_x_px false true <= 26.
Proof.
  pose proof (tanh_bounds ((mouse_x_px - cart_x_px) / 75)) as Ht.
  assert (E : mouse_force cart_x_px mouse_x_px false true
              = 26 * tanh ((mouse_x_px - cart_x_px) / 75)).
  { unfold mouse_force. cbv zeta. cbn [negb orb params.max_mouse_force P].
    replace 75.0 with 75 by lra. replace 26.0 with 26 by lra.
    rewrite clamp_Rmax_Rmin. unfold Rmax, Rmin.
    repeat destruct (Rle_dec _ _); lra. }
  rewrite E. split; [reflexivity|lra].
Qed.

(** ** dynamics.py: no division by zero *)

Lemma py_div_nonzero a b : b <> 0 -> py_div a b = Some (a / b).
Proof. intros H. unfold py_div. destruct (Req_dec_T b 0); easy. Qed.

Lemma cos_pow2_le_1 th : 0 <= cos th ^ 2 <= 1.
Proof. pose proof (COS_bound th). nra. Qed.

Lemma free_denominator_pos th :
  0 < params.l P
      * (4.0 / 3.0
         - params.m P * cos th ^ 2 / (params.M P + params.m P)) + 1e-9.
Proof.
  cbn [params.l params.m params.M P].
  pose proof (cos_pow2_le_1 th). lra.
Qed.

(** X8: neither derivative function ever divides by zero: for every
    state, force and damping all their divisors are nonzero, so the
    checked versions always return a value, that of [dynamics_free] and
    [dynamics_constrained]. *)
Theorem dynamics_never_divide_by_zero (state : State)
  (force cart_damp pole_damp : R) :
  dynamics_free_checked state force cart_damp pole_damp
  = Some (dynamics_free state force cart_damp pole_damp)
  /\ dynamics_constrained_checked state pole_damp
     = Some (dynamics_constrained state pole_damp).
Proof.
  destruct state as [x0 v th w].
  assert (H1 : params.m P * params.l P ^ 2 + 1e-9 <> 0) by (cbn; lra).
  assert (H2 : params.M P + params.m P <> 0) by (cbn; lra).
  assert (H3 : params.l P * (4.0 / 3.0) + 1e-9 <> 0) by (cbn; lra).
  pose proof (free_denominator_pos th) as H4.
  split.
  - unfold dynamics_free_checked, dynamics_free.
    rewrite (py_div_nonzero _ _ H1). cbn [bind].
    rewrite (py_div_nonzero _ _ H2). cbn [bind].
    rewrite (py_div_nonzero _ _ H2). cbn [bind].
    rewrite py_div_nonzero by lra. cbn [bind].
    rewrite (py_div_nonzero _ _ H2). cbn [bind].
    reflexivity.
  - unfold dynamics_constrained_checked, dynamics_constrained.
    rewrite (py_div_nonzero _ _ H1). cbn [bind].
    rewrite (py_div_nonzero _ _ H3). cbn [bind].
    reflexivity.
Qed.

(** ** dynamics.py: symmetries and equilibria *)

(** X9: the free dynamics is mirror symmetric: reflecting the state
    (negating [x], [x_dot], [theta], [theta_dot]) together with the force
    negates the derivative; and it does not depend on the cart position. *)
Theorem dynamics_free_mirror (x0 x1 v th w force cart_damp pole_damp : R) :
  dynamics_free (mkState (- x0) (- v) (- th) (- w)) (- force)
                cart_damp pole_damp
  = ((-1) *: dynamics_free (mkState x0 v th w) force cart_damp pole_damp)%vec
  /\ dynamics_free (mkState x1 v th w) force cart_damp pole_damp
     = dynamics_free (mkState x0 v th w) force cart_damp pole_damp.
Proof.
  split; [|reflexivity].
  unfold dynamics_free, smul. cbv zeta. cbn [x x_dot theta theta_dot].
  rewrite sin_neg, cos_neg. unfold Rdiv. name_inverses.
  apply State_eq; cbn [x x_dot theta theta_dot]; ring.
Qed.

(** Moving a state by a constant vector. *)
Lemma vadd_smul_shift (y d k : State) (c : R) :
  ((y + d) + c *: k)%vec = ((y + c *: k) + d)%vec.
Proof. apply State_eq; cbn; ring. Qed.

(** If the derivative ignores a displacement [d] of the state, the
    Runge-Kutta step commutes with it. *)
Lemma classic_rk4_shift (f : State -> State) (d : State) :
  (forall y, f (y + d)%vec = f y) ->
  forall y h, classic_rk4 f (y + d)%vec h = (classic_rk4 f y h + d)%vec.
Proof.
  intros Hf y h. unfold classic_rk4. cbv zeta.
  rewrite Hf.
  repeat (rewrite (vadd_smul_shift y d); rewrite ?Hf).
  reflexivity.
Qed.

Lemma regime_derivative_x_shift constrained force cart_damp pole_damp a y :
  regime_derivative constrained force cart_damp pole_damp
    (y + mkState a 0 0 0)%vec
  = regime_derivative constrained force cart_damp pole_damp y.
Proof.
  destruct y as [x0 v th w].
  unfold regime_derivative, vadd. cbn [x x_dot theta theta_dot].
  replace (v + 0) with v by ring. replace (th + 0) with th by ring.
  replace (w + 0) with w by ring.
  destruct constrained; reflexivity.
Qed.


(** X10: in either regime [rk4_step] is invariant under translation of
    the track: moving the input cart position by [a] moves the output
    position by [a] and changes nothing else. *)
Theorem rk4_step_translation (x0 v th w a force dt : R) (constrained : bool)
  (cart_damp pole_damp : R) :
  rk4_step (mkState (x0 + a) v th w) force dt constrained cart_damp pole_damp
  = (rk4_step (mkState x0 v th w) force dt constrained cart_damp pole_damp
     + mkState a 0 0 0)%vec.
Proof.
  rewrite !rk4_step_unfold. cbv zeta.
  replace (mkState (x0 + a) v th w)
    with (mkState x0 v th w + mkState a 0 0 0)%vec
    by (apply State_eq; cbn; ring).
  rewrite classic_rk4_shift by (intros; apply regime_derivative_x_shift).
  set (nxt := classic_rk4 _ _ _).
  apply State_eq; cbn [x x_dot theta theta_dot vadd set_theta]; try ring.
  replace (theta nxt + 0) with (theta nxt) by ring. ring.
Qed.


Lemma vadd_smul_zero (y : State) (c : R) :
  (y + c *: mkState 0 0 0 0)%vec = y.
Proof. destruct y. apply State_eq; cbn; ring. Qed.

Lemma classic_rk4_fixed (f : State -> State) (y : State) (h : R) :
  f y = mkState 0 0 0 0 -> classic_rk4 f y h = y.
Proof.
  intros E. unfold classic_rk4. cbv zeta.
  repeat (rewrite E || rewrite vadd_smul_zero).
  destruct y. apply State_eq; cbn; ring.
Qed.

(** X12: the upright pole ([theta = 0]) at rest is a fixed point of
    [rk4_step]: in the free regime with the cart at rest and no force,
    and in the constrained regime whatever the force and the stored cart
    velocity; this holds for every cart position, step and damping. *)
Theorem rk4_step_equilibria (x0 v0 force dt cart_damp pole_damp : R) :
  rk4_step (mkState x0 0 0 0) 0 dt false cart_damp pole_damp
  = mkState x0 0 0 0
  /\ rk4_step (mkState x0 v0 0 0) force dt true cart_damp pole_damp
     = mkState x0 v0 0 0.
Proof.
  split; rewrite rk4_step_unfold; cbv zeta;
    (rewrite classic_rk4_fixed;
     [ unfold set_theta; cbn [x x_dot theta theta_dot];
       rewrite wrap_angle_0; reflexivity
     | unfold regime_derivative, dynamics_free, dynamics_constrained;
       rewrite ?sin_0, ?cos_0;
       unfold Rdiv; name_inverses;
       apply State_eq; cbn [x x_dot theta theta_dot]; first [ring | lra] ]).
Qed.

(** ** controller.py: the integral over a run of calls *)

Lemma call_integral c st t ref_x ref_theta :
  Controller.x_err_i (snd (Controller.call c st t ref_x ref_theta))
  = Controller.x_err_i c + (ref_x - x st) * (t - Controller.prev_t c)
  /\ Controller.prev_t (snd (Controller.call c st t ref_x ref_theta)) = t.
Proof. split; reflexivity. Qed.

Lemma controller_run_cons c a rest :
  snd (controller_run c (a :: rest))
  = snd (controller_run
           (snd (let '(st, t, ref_x, ref_theta) := a in
                 Controller.call c st t ref_x ref_theta)) rest).
Proof.
  destruct a as [[[st t] ref_x] ref_theta]. cbn [controller_run].
  destruct (Controller.call c st t ref_x ref_theta) as [u c1].
  cbn [snd]. destruct (controller_run c1 rest) as [us c2]. reflexivity.
Qed.

Lemma last_default_irrelevant (l : list R) : forall d d',
  l <> [] -> last l d = last l d'.
Proof.
  induction l as [|y [|z l'] IHl]; intros d d' Hl;
    [congruence|reflexivity|].
  change (last (z :: l') d = last (z :: l') d').
  apply IHl. discriminate.
Qed.

Lemma last_cons_default (l : list R) (t d : R) :
  last (t :: l) d = last l t.
Proof.
  destruct l as [|y l']; [reflexivity|].
  change (last (y :: l') d = last (y :: l') t).
  apply last_default_irrelevant. discriminate.
Qed.

(** X13: over a run of calls that all present the same position error
    [e], the integral grows by [e] times the time elapsed between the
    controller's [prev_t] and the last call, however the calls in between
    are spaced; [prev_t] ends as the time of the last call. *)
Theorem controller_integral_constant_error (calls : list CallArgs) :
  forall (c : Controller.t) (e : R),
  Forall (fun a => call_error a = e) calls ->
  let c' := snd (controller_run c calls) in
  let t_last := last (map call_time calls) (Controller.prev_t c) in
  Controller.x_err_i c'
  = Controller.x_err_i c + e * (t_last - Controller.prev_t c)
  /\ Controller.prev_t c' = t_last.
Proof.
  induction calls as [|a rest IH]; intros c e He.
  - cbn. split; [ring|reflexivity].
  - inversion He as [|? ? Ha Hrest]; subst.
    cbv zeta. rewrite controller_run_cons.
    destruct a as [[[st t] ref_x] ref_theta].
    destruct (call_integral c st t ref_x ref_theta) as [Ei Et].
    set (c1 := snd (Controller.call c st t ref_x ref_theta)) in *.
    destruct (IH c1 _ Hrest) as [IHi IHt]. cbv zeta in IHi, IHt.
    cbn [map call_time call_error] in *. rewrite last_cons_default.
    rewrite Et in IHi, IHt. rewrite IHi, IHt, Ei.
    split; [ring|reflexivity].
Qed.

(** A cart held one metre off its reference, sampled at 0.5, 0.7 and
    3.0: the integral is [-1 * 3.0]. *)
Lemma controller_integral_constant_error_witness :
  Controller.x_err_i
    (snd (controller_run Controller.init
            [(mkState 1 0 0 0, 0.5, 0, 0); (mkState 1 2 0.1 0, 0.7, 0, 0);
             (mkState 3 0 0 0, 3.0, 2, 0)]))
  = Controller.x_err_i Controller.init
    + -1 * (last (map call_time
                   [(mkState 1 0 0 0, 0.5, 0, 0);
                    (mkState 1 2 0.1 0, 0.7, 0, 0);
                    (mkState 3 0 0 0, 3.0, 2, 0)])
                 (Controller.prev_t Controller.init)
            - Controller.prev_t Controller.init).
Proof.
  apply (controller_integral_constant_error
           [(mkState 1 0 0 0, 0.5, 0, 0); (mkState 1 2 0.1 0, 0.7, 0, 0);
            (mkState 3 0 0 0, 3.0, 2, 0)] Controller.init (-1)).
  repeat constructor; cbn; lra.
Defined.

(** X14: calling the controller a second time at the same instant with
    the same arguments returns the same force and changes nothing: the
    elapsed time is zero, so the integral does not grow (this is what
    happens frame after frame while the simulation is paused). *)
Theorem controller_same_instant (c : Controller.t) (state : State)
  (t ref_x ref_theta : R) :
  let r := Controller.call c state t ref_x ref_theta in
  Controller.call (snd r) state t ref_x ref_theta = r.
Proof.
  cbv zeta. unfold Controller.call. cbv zeta.
  cbn [snd Controller.k_p Controller.k_i Controller.k_d
       Controller.x_err_i Controller.prev_t].
  f_equal; [|f_equal]; ring.
Qed.

(** ** metrics.py: what the running values are *)

Lemma update_max_abs_x_dev_eq m a :
  Metrics.max_abs_x_dev (update_with m a)
  = Rmax (Metrics.max_abs_x_dev m) (sample_abs_x_err a).
Proof.
  rewrite <- py_max_Rmax. update_paths m; reflexivity.
Qed.

Lemma update_max_abs_theta_eq m a :
  Metrics.max_abs_theta (update_with m a)
  = Rmax (Metrics.max_abs_theta m) (sample_abs_theta_err a).
Proof.
  rewrite <- py_max_Rmax. update_paths m; reflexivity.
Qed.

Lemma max_of_nonneg l : 0 <= max_of l.
Proof.
  induction l as [|r l IH]; cbn; [lra|].
  eapply Rle_trans; [exact IH|apply Rmax_r].
Qed.

Lemma Rmax_shuffle a b c : Rmax (Rmax a b) c = Rmax a (Rmax b c).
Proof. unfold Rmax. repeat destruct (Rle_dec _ _); lra. Qed.

Lemma updates_max_abs_x_dev_eq l : forall m,
  0 <= Metrics.max_abs_x_dev m ->
  Metrics.max_abs_x_dev (updates m l)
  = Rmax (Metrics.max_abs_x_dev m) (max_of (map sample_abs_x_err l)).
Proof.
  induction l as [|a l IH]; intros m Hm.
  - cbn. symmetry. apply Rmax_left. exact Hm.
  - cbn [updates fold_left map max_of fold_right].
    change (fold_left update_with l (update_with m a))
      with (updates (update_with m a) l).
    rewrite IH, update_max_abs_x_dev_eq; [apply Rmax_shuffle|].
    rewrite update_max_abs_x_dev_eq.
    eapply Rle_trans; [exact Hm|apply Rmax_l].
Qed.

Lemma updates_max_abs_theta_eq l : forall m,
  0 <= Metrics.max_abs_theta m ->
  Metrics.max_abs_theta (updates m l)
  = Rmax (Metrics.max_abs_theta m) (max_of (map sample_abs_theta_err l)).
Proof.
  induction l as [|a l IH]; intros m Hm.
  - cbn. symmetry. apply Rmax_left. exact Hm.
  - cbn [updates fold_left map max_of fold_right].
    change (fold_left update_with l (update_with m a))
      with (updates (update_with m a) l).
    rewrite IH, update_max_abs_theta_eq; [apply Rmax_shuffle|].
    rewrite update_max_abs_theta_eq.
    eapply Rle_trans; [exact Hm|apply Rmax_l].
Qed.

Lemma max_of_bound (l : list R) (b : R) :
  0 <= b -> Forall (fun r => r <= b) l -> max_of l <= b.
Proof.
  intros Hb H. induction H as [|r l Hr _ IH]; cbn; [exact Hb|].
  apply Rmax_lub; assumption.
Qed.

(** X15: after a reset, [max_abs_x_dev] is exactly the largest
    [|x - ref_x|] among the updates performed since, and [max_abs_theta]
    the largest [|wrap(theta - ref_theta)|] (0 when there were none); the
    latter therefore stays between 0 and [pi] whatever angles are fed. *)
Theorem metrics_maxima_exact (m : Metrics.t) (l : list UpdateArgs) :
  Metrics.max_abs_x_dev (updates (Metrics.reset m) l)
  = max_of (map sample_abs_x_err l)
  /\ Metrics.max_abs_theta (updates (Metrics.reset m) l)
     = max_of (map sample_abs_theta_err l)
  /\ 0 <= Metrics.max_abs_theta (updates (Metrics.reset m) l) <= PI.
Proof.
  assert (Et : Metrics.max_abs_theta (updates (Metrics.reset m) l)
               = max_of (map sample_abs_theta_err l)).
  { rewrite updates_max_abs_theta_eq by (cbn; lra).
    cbn [Metrics.reset Metrics.max_abs_theta].
    replace 0.0 with 0 by lra. apply Rmax_right, max_of_nonneg. }
  split; [|split; [exact Et|]].
  - rewrite updates_max_abs_x_dev_eq by (cbn; lra).
    cbn [Metrics.reset Metrics.max_abs_x_dev].
    replace 0.0 with 0 by lra. apply Rmax_right, max_of_nonneg.
  - rewrite Et. split; [apply max_of_nonneg|].
    apply max_of_bound; [pose proof PI_RGT_0; lra|].
    apply Forall_forall. intros r Hr. apply in_map_iff in Hr.
    destruct Hr as (a & <- & _). unfold sample_abs_theta_err.
    apply Rabs_le.
    pose proof (wrap_angle_range (theta (u_state a) - u_ref_theta a)). lra.
Qed.

(** ** metrics.py: the settle time *)

Lemma update_settled_marker m a s :
  Metrics.settle_time m = Some s ->
  Metrics._in_band_since (update_with m a) = Metrics._in_band_since m.
Proof.
  intros H. unfold update_with, Metrics.update. cbv zeta.
  rewrite H. reflexivity.
Qed.


(** X17: the settle time latches: once it is recorded, no later update
    (in or out of the band) changes it or the band-entry marker. *)
Theorem settle_time_latches (l : list UpdateArgs) :
  forall (m : Metrics.t) (s : R),
  Metrics.settle_time m = Some s ->
  Metrics.settle_time (updates m l) = Some s
  /\ Metrics._in_band_since (updates m l) = Metrics._in_band_since m.
Proof.
  induction l as [|a l IH]; intros m s Hs; [easy|].
  change (updates m (a :: l)) with (updates (update_with m a) l).
  destruct (IH (update_with m a) s (update_settled m a s Hs)) as [E1 E2].
  split; [exact E1|].
  rewrite E2. apply (update_settled_marker m a s Hs).
Qed.

(** A tracker settled at 7.0 that then sees the cart leave the band. *)
Lemma settle_time_latches_witness :
  Metrics.settle_time
    (updates (Metrics.mk 0.1 0.2 3 (Some 7.0) (Some 7.0))
             [mkArgs (mkState 1 0 0 0) 9.0 0 0 0 0.1;
              mkArgs (mkState 0 0 0 0) 9.5 0 0 0 0.1]) = Some 7.0.
Proof.
  apply (settle_time_latches _ (Metrics.mk 0.1 0.2 3 (Some 7.0) (Some 7.0))).
  reflexivity.
Defined.







(** ** main.py: the track bounds in the sub-step loop *)

Lemma rk4_step_theta_range state force dt constrained cart_damp pole_damp :
  - PI <= theta (rk4_step state force dt constrained cart_damp pole_damp)
  < PI.
Proof.
  rewrite rk4_step_unfold. cbv zeta. unfold set_theta. cbn [theta].
  apply wrap_angle_range.
Qed.

Lemma track_bounds : main.x_min_m < main.x_max_m.
Proof. rewrite x_min_m_value, x_max_m_value. lra. Qed.

Lemma safety_clamp_cases st :
  (x st < main.x_min_m /\
   main.safety_clamp st
   = mkState main.x_min_m (Rmax (x_dot st) 0) (theta st) (theta_dot st))
  \/ (x st > main.x_max_m /\
      main.safety_clamp st
      = mkState main.x_max_m (Rmin (x_dot st) 0) (theta st) (theta_dot st))
  \/ (main.x_min_m <= x st <= main.x_max_m /\ main.safety_clamp st = st).
Proof.
  pose proof track_bounds as Hb.
  destruct st as [x0 v th w]. unfold main.safety_clamp.
  cbn [x x_dot theta theta_dot set_x set_x_dot].
  destruct (Rltb x0 main.x_min_m) eqn:E1.
  - apply Rltb_true in E1. left. split; [exact E1|].
    destruct (Rltb v 0) eqn:E2.
    + apply Rltb_true in E2. rewrite Rmax_right by lra.
      replace 0.0 with 0 by lra. reflexivity.
    + apply Rltb_false in E2. rewrite Rmax_left by lra. reflexivity.
  - apply Rltb_false in E1. destruct (Rgtb x0 main.x_max_m) eqn:E3.
    + apply Rgtb_true in E3. right. left. split; [exact E3|].
      destruct (Rgtb v 0) eqn:E4.
      * apply Rgtb_true in E4. rewrite Rmin_right by lra.
        replace 0.0 with 0 by lra. reflexivity.
      * apply Rgtb_false in E4. rewrite Rmin_left by lra. reflexivity.
    + apply Rgtb_false in E3. right. right. split; [lra|reflexivity].
Qed.

Lemma safety_clamp_on_track st :
  main.x_min_m <= x (main.safety_clamp st) <= main.x_max_m.
Proof.
  pose proof track_bounds as Hb.
  destruct (safety_clamp_cases st) as [[H E]|[[H E]|[H E]]]; rewrite E;
    cbn [x]; lra.
Qed.

(** X19: the safety clamp projects the cart onto the track,
    [x := clamp(x, x_min, x_max)], and is idempotent.  It touches the
    velocity only of a cart that was beyond a bound, and then only
    removes the part pointing further out: [x_dot := max(x_dot, 0)]
    below [x_min], [min(x_dot, 0)] above [x_max].  The pole is left
    alone. *)
Theorem safety_clamp_projection (st : State) :
  x (main.safety_clamp st) = clamp (x st) main.x_min_m main.x_max_m
  /\ (x st < main.x_min_m ->
      x_dot (main.safety_clamp st) = Rmax (x_dot st) 0)
  /\ (x st > main.x_max_m ->
      x_dot (main.safety_clamp st) = Rmin (x_dot st) 0)
  /\ (main.x_min_m <= x st <= main.x_max_m ->
      x_dot (main.safety_clamp st) = x_dot st)
  /\ theta (main.safety_clamp st) = theta st
  /\ theta_dot (main.safety_clamp st) = theta_dot st
  /\ main.safety_clamp (main.safety_clamp st) = main.safety_clamp st.
Proof.
  pose proof track_bounds as Hb.
  split; [|split; [|split; [|split; [|split; [|split]]]]].
  - destruct (safety_clamp_cases st) as [[H E]|[[H E]|[H E]]]; rewrite E;
      cbn [x]; clamp_cases.
  - intros H. destruct (safety_clamp_cases st) as [[_ E]|[[H' _]|[H' _]]];
      [rewrite E; reflexivity|lra|lra].
  - intros H. destruct (safety_clamp_cases st) as [[H' _]|[[_ E]|[H' _]]];
      [lra|rewrite E; reflexivity|lra].
  - intros H. rewrite safety_clamp_inside by exact H. reflexivity.
  - destruct (safety_clamp_cases st) as [[_ E]|[[_ E]|[_ E]]]; rewrite E;
      reflexivity.
  - destruct (safety_clamp_cases st) as [[_ E]|[[_ E]|[_ E]]]; rewrite E;
      reflexivity.
  - apply safety_clamp_inside, safety_clamp_on_track.
Qed.

Lemma safety_clamp_projection_witness :
  x_dot (main.safety_clamp (mkState (-5) (-2) 0.1 0.3)) = Rmax (-2) 0.
Proof.
  apply (safety_clamp_projection (mkState (-5) (-2) 0.1 0.3)).
  cbn [x]. rewrite x_min_m_value. lra.
Defined.

Section SubstepLoop.

Variables f_total ref_x ref_theta cart_damp pole_damp : R.

Let step := main.substep f_total ref_x ref_theta cart_damp pole_damp.
Let loop n :=
  main.substeps_loop n f_total ref_x ref_theta cart_damp pole_damp.

Lemma substeps_loop_last n : forall s, loop (S n) s = step (loop n s).
Proof.
  induction n as [|n IH]; intros s; [reflexivity|].
  change (loop (S (S n)) s) with (loop (S n) (step s)).
  rewrite IH. reflexivity.
Qed.

Lemma substep_on_track s :
  main.x_min_m <= x (main.sim_state (step s)) <= main.x_max_m
  /\ - PI <= theta (main.sim_state (step s)) < PI.
Proof.
  unfold step, main.substep. cbv zeta. cbn [main.sim_state].
  split; [apply safety_clamp_on_track|].
  set (r := rk4_step _ _ _ _ _ _).
  assert (Ht : theta (main.safety_clamp r) = theta r).
  { destruct (safety_clamp_cases r) as [[_ E]|[[_ E]|[_ E]]]; rewrite E;
      reflexivity. }
  rewrite Ht. apply rk4_step_theta_range.
Qed.

Lemma substep_time_energy s :
  main.sim_t (step s) = main.sim_t s + params.dt P
  /\ Metrics.energy_abs_impulse (main.sim_metrics (step s))
     = Metrics.energy_abs_impulse (main.sim_metrics s)
       + Rabs f_total * params.dt P.
Proof.
  unfold step, main.substep. cbv zeta.
  cbn [main.sim_t main.sim_metrics]. split; [reflexivity|].
  match goal with
  | |- Metrics.energy_abs_impulse (Metrics.update ?m ?st ?t ?f ?rx ?rt ?d) = _
    => apply (update_energy m (mkArgs st t f rx rt d))
  end.
Qed.

Lemma substeps_loop_time_energy n : forall s,
  main.sim_t (loop n s) = main.sim_t s + INR n * params.dt P
  /\ Metrics.energy_abs_impulse (main.sim_metrics (loop n s))
     = Metrics.energy_abs_impulse (main.sim_metrics s)
       + INR n * (Rabs f_total * params.dt P).
Proof.
  induction n as [|n IH]; intros s.
  - cbn. split; ring.
  - rewrite substeps_loop_last.
    destruct (substep_time_energy (loop n s)) as [Et Ee].
    destruct (IH s) as [IHt IHe].
    rewrite Et, Ee, IHt, IHe, S_INR. split; ring.
Qed.

End SubstepLoop.

(** X20: whatever the state, the forces, the references and the damping,
    after one or more sub-steps the cart is on the track
    ([x_min <= x <= x_max]) and the pole angle is wrapped
    ([-pi <= theta <= pi]). *)
Theorem substeps_keep_on_track (n : nat)
  (f_total ref_x ref_theta cart_damp pole_damp : R) (s : main.Sim) :
  let s' :=
    main.substeps_loop (S n) f_total ref_x ref_theta cart_damp pole_damp s in
  main.x_min_m <= x (main.sim_state s') <= main.x_max_m
  /\ - PI <= theta (main.sim_state s') <= PI.
Proof.
  cbv zeta. rewrite substeps_loop_last.
  destruct (substep_on_track f_total ref_x ref_theta cart_damp pole_damp
              (main.substeps_loop n f_total ref_x ref_theta cart_damp
                                  pole_damp s)) as [Hx Ht].
  split; [exact Hx|lra].
Qed.

(** X21: [n] sub-steps advance the simulated time by [n * dt] and add
    [n * |f_total| * dt] to the impulse metric, whatever happens to the
    state (contact or not). *)
Theorem substeps_time_and_impulse (n : nat)
  (f_total ref_x ref_theta cart_damp pole_damp : R) (s : main.Sim) :
  let s' :=
    main.substeps_loop n f_total ref_x ref_theta cart_damp pole_damp s in
  main.sim_t s' = main.sim_t s + INR n * params.dt P
  /\ Metrics.energy_abs_impulse (main.sim_metrics s')
     = Metrics.energy_abs_impulse (main.sim_metrics s)
       + INR n * Rabs f_total * params.dt P.
Proof.
  cbv zeta.
  destruct (substeps_loop_time_energy f_total ref_x ref_theta cart_damp
              pole_damp n s) as [Et Ee].
  rewrite Et, Ee. split; ring.
Qed.

(** ** main.py: the lower bound of the track *)

Lemma pre_clamp_left st :
  x st <= main.x_min_m + 1e-6 ->
  x (main.pre_clamp st) = Rmax (x st) main.x_min_m
  /\ x_dot (main.pre_clamp st) = 0.
Proof.
  intros Hx. unfold main.pre_clamp. cbv zeta.
  pose proof x_max_m_value as Emax. pose proof x_min_m_value as Emin.
  destruct (Rleb (x st) main.x_min_m) eqn:E.
  - apply Rleb_true in E. cbn [x set_x].
    replace (Rgeb main.x_min_m main.x_max_m) with false
      by (symmetry; apply Rgeb_false; lra).
    cbn. rewrite Rmax_right by lra. lra.
  - apply Rleb_false in E.
    replace (Rgeb (x st) main.x_max_m) with false
      by (symmetry; apply Rgeb_false; lra).
    cbn. rewrite Rmax_left by lra. lra.
Qed.

Section PushedLeft.

Variables f_total ref_x ref_theta cart_damp pole_damp : R.
Hypothesis pushing_left : f_total < 0.

Let step := main.substep f_total ref_x ref_theta cart_damp pole_damp.
Let loop n :=
  main.substeps_loop n f_total ref_x ref_theta cart_damp pole_damp.

Lemma constraint_flag_left st :
  x st <= main.x_min_m + 1e-6 -> main.constraint_flag st f_total = true.
Proof.
  intros Hx. unfold main.constraint_flag. cbv zeta.
  replace (Rleb (x st) (main.x_min_m + 1e-6)) with true
    by (symmetry; apply Rleb_true; exact Hx).
  replace (Rltb f_total 0.0) with true
    by (symmetry; apply Rltb_true; lra).
  reflexivity.
Qed.

Lemma substep_left s :
  x (main.sim_state s) <= main.x_min_m + 1e-6 ->
  x (main.sim_state (step s)) = Rmax (x (main.sim_state s)) main.x_min_m
  /\ x_dot (main.sim_state (step s)) = 0.
Proof.
  intros Hx. unfold step, main.substep. cbv zeta. cbn [main.sim_state].
  rewrite (constraint_flag_left _ Hx).
  destruct (pre_clamp_left _ Hx) as [Hpx Hpv].
  destruct (rk4_step_constrained_frame_aux (main.pre_clamp (main.sim_state s))
              f_total (params.dt P) cart_damp pole_damp) as [Hrx Hrv].
  rewrite safety_clamp_inside; rewrite ?Hrx, ?Hrv, ?Hpx; [easy|].
  pose proof x_max_m_value. pose proof x_min_m_value.
  unfold Rmax. destruct (Rle_dec _ _); lra.
Qed.

Lemma substeps_loop_left n : forall s,
  x (main.sim_state s) <= main.x_min_m + 1e-6 ->
  x (main.sim_state (loop (S n) s))
  = Rmax (x (main.sim_state s)) main.x_min_m
  /\ x_dot (main.sim_state (loop (S n) s)) = 0.
Proof.
  induction n as [|n IH]; intros s Hx.
  - apply substep_left; trivial.
  - change (loop (S (S n)) s) with (loop (S n) (step s)).
    destruct (substep_left s Hx) as [Hsx Hsv].
    assert (Hx' : x (main.sim_state (step s)) <= main.x_min_m + 1e-6).
    { rewrite Hsx. unfold Rmax. destruct (Rle_dec _ _); lra. }
    destruct (IH _ Hx') as [Hlx Hlv].
    split; [|exact Hlv].
    rewrite Hlx, Hsx. unfold Rmax.
    repeat destruct (Rle_dec _ _); lra.
Qed.

End PushedLeft.

(** X22: at the lower bound the wall acts as at the upper one: a cart
    with [x <= x_min + eps] under a total force [< 0] has [x_dot = 0]
    after one or more sub-steps; its [x] is [x_min] when it was at or
    beyond [x_min], and is left as it was when it stood within [eps]
    inside the bound. *)
Theorem left_wall_contact_substeps (n : nat)
  (f_total ref_x ref_theta cart_damp pole_damp : R) (s : main.Sim) :
  x (main.sim_state s) <= main.x_min_m + 1e-6 -> f_total < 0 ->
  let s' :=
    main.substeps_loop (S n) f_total ref_x ref_theta cart_damp pole_damp s in
  x_dot (main.sim_state s') = 0
  /\ (x (main.sim_state s) <= main.x_min_m ->
      x (main.sim_state s') = main.x_min_m)
  /\ (main.x_min_m < x (main.sim_state s) ->
      x (main.sim_state s') = x (main.sim_state s)).
Proof.
  intros Hx Hf s'.
  destruct (substeps_loop_left f_total ref_x ref_theta cart_damp pole_damp
              Hf n s Hx) as [Hlx Hlv].
  fold s' in Hlx, Hlv. repeat split; [exact Hlv| |]; intros H; rewrite Hlx.
  - apply Rmax_right. lra.
  - apply Rmax_left. lra.
Qed.

Lemma left_wall_contact_substeps_witness :
  x (main.sim_state
       (main.substeps_loop (params.substeps P) (-10) 0 0
          (params.cart_damping P) (params.pole_damping P)
          (main.mkSim (mkState (main.x_min_m - 1) (-0.3) 0.15 0) 0
                      Metrics.init)))
  = main.x_min_m.
Proof.
  apply (left_wall_contact_substeps 1 (-10) 0 0 (params.cart_damping P)
           (params.pole_damping P)
           (main.mkSim (mkState (main.x_min_m - 1) (-0.3) 0.15 0) 0
                       Metrics.init));
    cbn [main.sim_state x]; lra.
Defined.

(** ** main.py: the forces of a frame *)

Lemma keyboard_force_bounded inp :
  Rabs (main.keyboard_force inp) <= main.key_force_mag.
Proof.
  unfold main.keyboard_force, main.key_force_mag.
  destruct (negb _); [destruct (_ && _); [|destruct (_ && _)]|];
    apply Rabs_le; lra.
Qed.

Lemma frame_forces_fst c state t ref_x ref_theta key_force inp :
  let F := fst (main.frame_forces c state t ref_x ref_theta key_force inp) in
  main.u_raw F = fst (Controller.call c state t ref_x ref_theta)
  /\ main.u F
     = clamp (main.u_raw F) (- params.max_force P) (params.max_force P)
  /\ main.is_saturated F = Rgtb (Rabs (main.u_raw F)) (params.max_force P)
  /\ - params.max_mouse_force P <= main.f_mouse F <= params.max_mouse_force P
  /\ main.f_total F = main.u F + main.f_mouse F + key_force
  /\ snd (main.frame_forces c state t ref_x ref_theta key_force inp)
     = snd (Controller.call c state t ref_x ref_theta).
Proof.
  unfold main.frame_forces.
  destruct (main.panel_dragging inp || main.panel_editing inp);
    destruct (Controller.call c state t ref_x ref_theta) as [ur c'];
    cbn [fst snd main.u_raw main.u main.is_saturated main.f_mouse
         main.f_total];
    repeat split; try reflexivity;
    apply (mouse_force_bounded_aux _ _ _ _).
Qed.

Lemma frame_snd inp w :
  snd (main.frame inp w)
  = fst (main.frame_forces
           (main.w_controller w) (main.sim_state (main.w_sim w))
           (main.sim_t (main.w_sim w))
           (fst (main.adjust_refs inp (main.w_ref_x w) (main.w_ref_theta w)))
           (snd (main.adjust_refs inp (main.w_ref_x w) (main.w_ref_theta w)))
           (main.keyboard_force inp) inp).
Proof.
  unfold main.frame.
  destruct (main.adjust_refs inp (main.w_ref_x w) (main.w_ref_theta w))
    as [rx rt].
  cbn [fst snd].
  destruct (main.frame_forces _ _ _ _ _ _ _) as [F c].
  destruct (negb (main.w_paused w)); reflexivity.
Qed.

(** X23: in every frame the controller force that reaches the cart lies
    within [[-max_force, max_force]]; the saturation flag is raised
    exactly when clamping changed the controller's output; and the total
    force lies within the range of the force plot,
    [max_force + max_mouse_force + key_force_mag] either way. *)
Theorem frame_forces_bounded (inp : main.Inputs) (w : main.World) :
  let F := snd (main.frame inp w) in
  - params.max_force P <= main.u F <= params.max_force P
  /\ (main.is_saturated F = true <-> main.u F <> main.u_raw F)
  /\ Rabs (main.f_total F)
     <= params.max_force P + params.max_mouse_force P + main.key_force_mag.
Proof.
  cbv zeta. rewrite frame_snd.
  set (rx := fst (main.adjust_refs _ _ _)).
  set (rt := snd (main.adjust_refs _ _ _)).
  destruct (frame_forces_fst (main.w_controller w)
              (main.sim_state (main.w_sim w)) (main.sim_t (main.w_sim w))
              rx rt (main.keyboard_force inp) inp)
    as (Er & Eu & Es & Hm & Et & _).
  cbv zeta in Er, Eu, Es, Hm, Et.
  set (F := fst (main.frame_forces _ _ _ _ _ _ _)) in *.
  pose proof (keyboard_force_bounded inp) as Hk.
  apply Rabs_le_between in Hk.
  assert (Hu : - params.max_force P <= main.u F <= params.max_force P)
    by (rewrite Eu; apply clamp_in_range_aux; cbn; lra).
  split; [exact Hu|]. split.
  - rewrite Es, Rgtb_true, Eu. cbn [params.max_force P].
    generalize (main.u_raw F). intros r. unfold Rabs.
    destruct (Rcase_abs r); split; intros H; clamp_cases;
      try (intros C; lra).
    + revert H. clamp_cases.
    + revert H. clamp_cases.
  - rewrite Et. apply Rabs_le. lra.
Qed.

(** ** main.py: the references *)



(** ** main.py: pausing *)

Lemma call_same_instant c state t ref_x ref_theta :
  Controller.call (snd (Controller.call c state t ref_x ref_theta))
                  state t ref_x ref_theta
  = Controller.call c state t ref_x ref_theta.
Proof.
  unfold Controller.call. cbv zeta.
  cbn [snd Controller.k_p Controller.k_i Controller.k_d
       Controller.x_err_i Controller.prev_t].
  f_equal; [|f_equal]; ring.
Qed.

Lemma adjust_refs_idle inp ref_x ref_theta :
  main.key_q inp = false -> main.key_a inp = false ->
  main.key_w inp = false -> main.key_s inp = false ->
  let r := main.adjust_refs inp ref_x ref_theta in
  main.adjust_refs inp (fst r) (snd r) = r.
Proof.
  intros Hq Ha Hw Hs. cbv zeta. unfold main.adjust_refs.
  rewrite Hq, Ha, Hw, Hs. pose proof track_bounds as Hb.
  destruct (negb (main.panel_editing inp)); cbn [fst snd]; [|reflexivity].
  f_equal.
  - clamp_cases.
  - apply wrap_angle_fix, wrap_angle_range.
Qed.

Lemma frame_forces_same_instant c state t ref_x ref_theta key_force inp :
  main.frame_forces
    (snd (main.frame_forces c state t ref_x ref_theta key_force inp))
    state t ref_x ref_theta key_force inp
  = main.frame_forces c state t ref_x ref_theta key_force inp.
Proof.
  unfold main.frame_forces.
  destruct (main.panel_dragging inp || main.panel_editing inp);
    pose proof (call_same_instant c state t ref_x ref_theta) as E;
    destruct (Controller.call c state t ref_x ref_theta) as [ur c'];
    cbn [snd] in *; rewrite E; reflexivity.
Qed.

(** X25: while paused, a frame leaves the state, the time, the metrics
    and the history untouched; and with no reference key held, running
    the frame again on its own result changes nothing more: the
    controller is called at the same instant, so its integral does not
    wind up during the pause. *)
Theorem paused_frame_stable (inp : main.Inputs) (w : main.World) :
  main.w_paused w = true ->
  let w1 := fst (main.frame inp w) in
  main.w_sim w1 = main.w_sim w
  /\ main.w_hist w1 = main.w_hist w
  /\ (main.key_q inp = false -> main.key_a inp = false ->
      main.key_w inp = false -> main.key_s inp = false ->
      main.frame inp w1 = main.frame inp w).
Proof.
  intros Hp. cbv zeta.
  assert (E : main.frame inp w
              = let r := main.adjust_refs inp (main.w_ref_x w)
                                          (main.w_ref_theta w) in
                let Fc := main.frame_forces
                            (main.w_controller w)
                            (main.sim_state (main.w_sim w))
                            (main.sim_t (main.w_sim w))
                            (fst r) (snd r) (main.keyboard_force inp) inp in
                (main.mkWorld (main.w_sim w) (snd Fc) (fst r) (snd r) true
                              (main.w_friction_on w) (main.w_hist w),
                 fst Fc)).
  { unfold main.frame. rewrite Hp. cbn [negb]. cbv zeta.
    destruct (main.adjust_refs _ _ _) as [rx rt]. cbn [fst snd].
    destruct (main.frame_forces _ _ _ _ _ _ _) as [F c]. reflexivity. }
  rewrite E. cbv zeta. cbn [fst main.w_sim main.w_hist].
  split; [reflexivity|]. split; [reflexivity|].
  intros Hq Ha Hw Hs.
  set (r := main.adjust_refs inp (main.w_ref_x w) (main.w_ref_theta w)).
  set (Fc := main.frame_forces _ _ _ _ _ _ _).
  unfold main.frame.
  cbn [main.w_paused main.w_ref_x main.w_ref_theta main.w_controller
       main.w_sim main.w_friction_on main.w_hist negb].
  pose proof (adjust_refs_idle inp (main.w_ref_x w) (main.w_ref_theta w)
                Hq Ha Hw Hs) as Er.
  cbv zeta in Er. fold r in Er. rewrite Er.
  destruct r as [rx rt] eqn:Hr. cbn [fst snd] in *.
  pose proof (frame_forces_same_instant
                (main.w_controller w) (main.sim_state (main.w_sim w))
                (main.sim_t (main.w_sim w)) rx rt
                (main.keyboard_force inp) inp) as Ef.
  fold Fc in Ef. rewrite Ef.
  destruct Fc as [F c]. reflexivity.
Qed.

Lemma paused_frame_stable_witness :
  main.w_sim
    (fst (main.frame
            (main.mkInputs true false false false false false
                           false false 800 false false)
            (main.mkWorld (main.mkSim main.reset_state 1 Metrics.init)
                          Controller.init 0 0 true true
                          main.history_clear)))
  = main.mkSim main.reset_state 1 Metrics.init.
Proof.
  apply (paused_frame_stable
           (main.mkInputs true false false false false false
                          false false 800 false false)
           (main.mkWorld (main.mkSim main.reset_state 1 Metrics.init)
                         Controller.init 0 0 true true main.history_clear)).
  reflexivity.
Defined.

(** ** main.py: the bounded history *)

Lemma skipn_S_tl {A : Type} (l : list A) : forall k,
  skipn (S k) l = tl (skipn k l).
Proof.
  induction l as [|y l IH]; intros k.
  - destruct k; reflexivity.
  - destruct k as [|k]; [reflexivity|].
    change (skipn (S k) l = tl (skipn k l)). apply IH.
Qed.

Lemma deque_append_length {A : Type} maxlen (d : list A) v :
  (length d <= maxlen)%nat ->
  length (main.deque_append maxlen d v) = Nat.min (S (length d)) maxlen.
Proof.
  intros H. unfold main.deque_append. cbv zeta.
  rewrite length_app. cbn [length].
  destruct (Nat.ltb_spec maxlen (length d + 1)) as [Hlt|Hge].
  - assert (E : length d = maxlen) by lia.
    destruct d as [|y d']; cbn [app tl length] in *.
    + subst. reflexivity.
    + rewrite length_app. cbn [length]. lia.
  - rewrite length_app. cbn [length]. lia.
Qed.

Lemma deque_fill_snoc {A : Type} maxlen (l : list A) v :
  deque_fill maxlen (l ++ [v])
  = main.deque_append maxlen (deque_fill maxlen l) v.
Proof. unfold deque_fill. rewrite fold_left_app. reflexivity. Qed.

(** X26: a deque of capacity [maxlen] that has been fed the items [l]
    holds exactly the last [maxlen] of them in order (all of them while
    fewer were fed), so it never grows beyond [maxlen]. *)
Theorem deque_keeps_latest {A : Type} (maxlen : nat) (l : list A) :
  deque_fill maxlen l = skipn (length l - maxlen) l
  /\ length (deque_fill maxlen l) = Nat.min (length l) maxlen.
Proof.
  assert (E : deque_fill maxlen l = skipn (length l - maxlen) l).
  { induction l as [|v l IH] using rev_ind; [reflexivity|].
    rewrite deque_fill_snoc, IH, length_app. cbn [length].
    unfold main.deque_append. cbv zeta.
    rewrite length_app, length_skipn. cbn [length].
    destruct (Nat.ltb_spec maxlen (length l - (length l - maxlen) + 1))
      as [Hlt|Hge].
    - assert (Hl : (maxlen <= length l)%nat) by lia.
      replace (length l + 1 - maxlen)%nat with (S (length l - maxlen))
        by lia.
      rewrite skipn_S_tl, skipn_app.
      replace (length l - maxlen - length l)%nat with 0%nat by lia.
      reflexivity.
    - replace (length l - maxlen)%nat with 0%nat by lia.
      replace (length l + 1 - maxlen)%nat with 0%nat by lia.
      reflexivity. }
  split; [exact E|]. rewrite E, length_skipn. lia.
Qed.

Lemma push_history_aligned h n tt st force :
  history_aligned h n -> (n <= main.history_len)%nat ->
  history_aligned (main.push_history h tt st force)
                  (Nat.min (S n) main.history_len).
Proof.
  intros (E1 & E2 & E3 & E4 & E5 & E6) Hn.
  unfold history_aligned, main.push_history.
  cbn [main.hist_t main.hist_x main.hist_x_dot main.hist_theta
       main.hist_theta_dot main.hist_force].
  rewrite !deque_append_length by lia.
  rewrite E1, E2, E3, E4, E5, E6. repeat split; reflexivity.
Qed.

Lemma deque_append_last maxlen (d : list R) v dflt :
  (0 < maxlen)%nat -> (length d <= maxlen)%nat ->
  last (main.deque_append maxlen d v) dflt = v.
Proof.
  intros Hpos Hd. unfold main.deque_append. cbv zeta.
  destruct (Nat.ltb_spec maxlen (length (d ++ [v]))) as [Hlt|Hge].
  - rewrite length_app in Hlt. cbn [length] in Hlt.
    destruct d as [|y d']; cbn [length] in *; [lia|].
    cbn [app tl]. apply last_last.
  - apply last_last.
Qed.

(** X27: a frame that is not paused advances the simulated time by
    [substeps * dt] (1/120 s) and pushes one sample stamped with the new
    time; the six history deques stay equally long and never exceed
    [history_len] samples. *)
Theorem frame_time_and_history (inp : main.Inputs) (w : main.World)
  (n : nat) :
  main.w_paused w = false ->
  history_aligned (main.w_hist w) n -> (n <= main.history_len)%nat ->
  let w1 := fst (main.frame inp w) in
  main.sim_t (main.w_sim w1) = main.sim_t (main.w_sim w) + 1 / 120
  /\ last (main.hist_t (main.w_hist w1)) 0 = main.sim_t (main.w_sim w1)
  /\ history_aligned (main.w_hist w1) (Nat.min (S n) main.history_len).
Proof.
  intros Hp Hal Hn. cbv zeta.
  unfold main.frame. rewrite Hp. cbn [negb].
  destruct (main.adjust_refs _ _ _) as [rx rt].
  destruct (main.frame_forces _ _ _ _ _ _ _) as [F c].
  cbn [fst main.w_sim main.w_hist].
  set (cd := if main.w_friction_on w then _ else _).
  set (pd := if main.w_friction_on w then _ else _).
  destruct (substeps_loop_time_energy (main.f_total F) rx rt cd pd
              (params.substeps P) (main.w_sim w)) as [Et _].
  split; [rewrite Et; cbn; lra|]. split.
  - unfold main.push_history. cbn [main.hist_t].
    apply deque_append_last; [unfold main.history_len; lia|].
    destruct Hal as [E1 _]. lia.
  - apply push_history_aligned; assumption.
Qed.

Lemma frame_time_and_history_witness :
  main.sim_t
    (main.w_sim
       (fst (main.frame
               (main.mkInputs false true false false false false
                              false false 800 false false)
               (main.mkWorld (main.mkSim main.reset_state 1 Metrics.init)
                             Controller.init 0 0 false true
                             main.history_clear))))
  = 1 + 1 / 120.
Proof.
  apply (frame_time_and_history
           (main.mkInputs false true false false false false
                          false false 800 false false)
           (main.mkWorld (main.mkSim main.reset_state 1 Metrics.init)
                         Controller.init 0 0 false true main.history_clear)
           0).
  - reflexivity.
  - repeat split.
  - unfold main.history_len. lia.
Defined.

(** ** main.py: the cart on the screen *)

(** X28: [cart_px_from_x] sends the track [[x_min_m, x_max_m]] onto the
    pixel range [[x_min_px, x_max_px]] = [[58, 1542]], increasingly, and
    is undone by the conversion that defines the bounds; so the body of a
    cart that is on the track, 93 pixels wide around the truncated pixel
    position, lies inside the window of width 1600. *)
Theorem cart_drawn_inside_window (x_m : R) :
  main.x_min_m <= x_m <= main.x_max_m ->
  main.cart_px_from_x main.x_min_m = IZR main.x_min_px
  /\ main.cart_px_from_x main.x_max_m = IZR main.x_max_px
  /\ 58 <= main.cart_px_from_x x_m <= 1542
  /\ (0 <= main.float_to_int (main.cart_px_from_x x_m) - main.cart_w / 2
      /\ main.float_to_int (main.cart_px_from_x x_m) - main.cart_w / 2
         + main.cart_w <= main.W)%Z.
Proof.
  intros [Hlo Hhi].
  assert (Hppm : main.ppm = 170) by (unfold main.ppm; cbn; lra).
  assert (Epx : main.x_min_px = 58%Z /\ main.x_max_px = 1542%Z).
  { unfold main.x_min_px, main.x_max_px, main.W. rewrite cart_w_value.
    split; reflexivity. }
  destruct Epx as [Emin Emax].
  assert (R1 : main.cart_px_from_x main.x_min_m = IZR main.x_min_px).
  { unfold main.cart_px_from_x, main.x_min_m. rewrite Hppm. field. }
  assert (R2 : main.cart_px_from_x main.x_max_m = IZR main.x_max_px).
  { unfold main.cart_px_from_x, main.x_max_m. rewrite Hppm. field. }
  assert (Hpx : 58 <= main.cart_px_from_x x_m <= 1542).
  { rewrite x_min_m_value in Hlo. rewrite x_max_m_value in Hhi.
    unfold main.cart_px_from_x, main.W. rewrite Hppm. lra. }
  repeat split; try tauto.
  - rewrite cart_w_value. unfold main.float_to_int.
    replace (Rleb 0 (main.cart_px_from_x x_m)) with true
      by (symmetry; apply Rleb_true; lra).
    assert (58 <= Zfloor (main.cart_px_from_x x_m))%Z
      by (apply Zfloor_lub; lra).
    change (93 / 2)%Z with 46%Z. lia.
  - rewrite cart_w_value. unfold main.float_to_int, main.W.
    replace (Rleb 0 (main.cart_px_from_x x_m)) with true
      by (symmetry; apply Rleb_true; lra).
    assert (Zfloor (main.cart_px_from_x x_m) <= 1542)%Z.
    { apply le_IZR. eapply Rle_trans;
        [apply Zfloor_bound|lra]. }
    change (93 / 2)%Z with 46%Z. lia.
Qed.

Lemma cart_drawn_inside_window_witness :
  58 <= main.cart_px_from_x 0 <= 1542.
Proof.
  apply (cart_drawn_inside_window 0).
  rewrite x_min_m_value, x_max_m_value. lra.
Defined.

(** ** plotting.py: points stay inside the plot *)

Lemma float_to_int_between (r : R) (a b : Z) :
  IZR a <= r <= IZR b -> (a <= main.float_to_int r <= b)%Z.
Proof.
  intros [Ha Hb]. unfold main.float_to_int.
  destruct (Rleb 0 r).
  - split; [apply Zfloor_lub, Ha|].
    apply le_IZR. eapply Rle_trans; [apply Zfloor_bound|exact Hb].
  - unfold Zceil. split.
    + assert (Zfloor (- r) <= - a)%Z; [|lia].
      apply le_IZR. eapply Rle_trans; [apply Zfloor_bound|].
      rewrite opp_IZR. lra.
    + assert (- b <= Zfloor (- r))%Z; [|lia].
      apply Zfloor_lub. rewrite opp_IZR. lra.
Qed.

Lemma float_to_int_IZR (z : Z) : main.float_to_int (IZR z) = z.
Proof.
  unfold main.float_to_int. destruct (Rleb 0 (IZR z)).
  - apply ZfloorZ.
  - unfold Zceil. rewrite <- opp_IZR, ZfloorZ. lia.
Qed.

(** X29: in a phase plot whose rectangle is at least 12 pixels wide and
    high, every point is drawn inside the padded plot area, whatever the
    data and the axis ranges (an empty or inverted range puts it at the
    centre); with proper ranges the corner [(xmin, ymin)] of the data
    lands on the bottom-left pixel of the area and [(xmax, ymax)] on the
    top-right one. *)
Theorem to_px_inside_plot (rect : plotting.Rect) (xmin xmax ymin ymax : R)
  (xv yv : R) :
  (12 <= plotting.rect_width rect)%Z ->
  (12 <= plotting.rect_height rect)%Z ->
  let plot_x := (plotting.rect_x rect + 6)%Z in
  let plot_y := (plotting.rect_y rect + 6)%Z in
  let plot_w := (plotting.rect_width rect - 12)%Z in
  let plot_h := (plotting.rect_height rect - 12)%Z in
  let p := plotting.to_px rect xmin xmax ymin ymax xv yv in
  (plot_x <= fst p <= plot_x + plot_w)%Z
  /\ (plot_y <= snd p <= plot_y + plot_h)%Z
  /\ (xmin < xmax -> ymin < ymax ->
      plotting.to_px rect xmin xmax ymin ymax xmin ymin
      = (plot_x, (plot_y + plot_h)%Z)
      /\ plotting.to_px rect xmin xmax ymin ymax xmax ymax
         = ((plot_x + plot_w)%Z, plot_y)).
Proof.
  intros Hw Hh plot_x plot_y plot_w plot_h p.
  assert (Hpw : (0 <= plot_w)%Z) by (unfold plot_w; lia).
  assert (Hph : (0 <= plot_h)%Z) by (unfold plot_h; lia).
  assert (HRw : IZR plot_x <= IZR (plot_x + plot_w))
    by (apply IZR_le; lia).
  assert (HRh : IZR plot_y <= IZR (plot_y + plot_h))
    by (apply IZR_le; lia).
  assert (Ew : (plotting.rect_width rect - 2 * 6 = plot_w)%Z)
    by (unfold plot_w; lia).
  assert (Eh : (plotting.rect_height rect - 2 * 6 = plot_h)%Z)
    by (unfold plot_h; lia).
  split; [|split].
  - unfold p, plotting.to_px. cbv zeta. rewrite Ew, Eh.
    fold plot_x. fold plot_y.
    destruct (Rleb xmax xmin || Rleb ymax ymin); cbn [fst].
    + assert (0 <= plot_w / 2 <= plot_w)%Z; [|lia].
      split; [apply Z.div_pos; lia|].
      apply Z.div_le_upper_bound; lia.
    + apply float_to_int_between. apply clamp_in_range_aux, HRw.
  - unfold p, plotting.to_px. cbv zeta. rewrite Ew, Eh.
    fold plot_x. fold plot_y.
    destruct (Rleb xmax xmin || Rleb ymax ymin); cbn [snd].
    + assert (0 <= plot_h / 2 <= plot_h)%Z; [|lia].
      split; [apply Z.div_pos; lia|].
      apply Z.div_le_upper_bound; lia.
    + apply float_to_int_between. apply clamp_in_range_aux, HRh.
  - intros Hx Hy. unfold plotting.to_px. cbv zeta. rewrite Ew, Eh.
    fold plot_x. fold plot_y.
    replace (Rleb xmax xmin) with false
      by (symmetry; apply Rleb_false; exact Hx).
    replace (Rleb ymax ymin) with false
      by (symmetry; apply Rleb_false; exact Hy).
    cbn [orb]. rewrite !plus_IZR in *.
    assert (HW : 0 <= IZR plot_w) by (apply IZR_le; exact Hpw).
    assert (HH : 0 <= IZR plot_h) by (apply IZR_le; exact Hph).
    split; f_equal.
    + replace (IZR plot_x + (xmin - xmin) / (xmax - xmin) * IZR plot_w)
        with (IZR plot_x) by (field; lra).
      replace (clamp (IZR plot_x) (IZR plot_x) (IZR plot_x + IZR plot_w))
        with (IZR plot_x) by clamp_cases.
      apply float_to_int_IZR.
    + replace (IZR plot_y + IZR plot_h
               - (ymin - ymin) / (ymax - ymin) * IZR plot_h)
        with (IZR plot_y + IZR plot_h) by (field; lra).
      replace (clamp (IZR plot_y + IZR plot_h) (IZR plot_y)
                     (IZR plot_y + IZR plot_h))
        with (IZR (plot_y + plot_h)) by (rewrite plus_IZR; clamp_cases).
      apply float_to_int_IZR.
    + replace (IZR plot_x + (xmax - xmin) / (xmax - xmin) * IZR plot_w)
        with (IZR plot_x + IZR plot_w) by (field; lra).
      replace (clamp (IZR plot_x + IZR plot_w) (IZR plot_x)
                     (IZR plot_x + IZR plot_w))
        with (IZR (plot_x + plot_w)) by (rewrite plus_IZR; clamp_cases).
      apply float_to_int_IZR.
    + replace (IZR plot_y + IZR plot_h
               - (ymax - ymin) / (ymax - ymin) * IZR plot_h)
        with (IZR plot_y) by (field; lra).
      replace (clamp (IZR plot_y) (IZR plot_y) (IZR plot_y + IZR plot_h))
        with (IZR plot_y) by clamp_cases.
      apply float_to_int_IZR.
Qed.

(** The cart phase plot of [main]: a 145 by 145 rectangle, the track on
    the horizontal axis and [-3, 3] m/s on the vertical one. *)
Lemma to_px_inside_plot_witness :
  (1141 + 6
   <= fst (plotting.to_px (plotting.mkRect 1141 12 145 145)
                          main.x_min_m main.x_max_m (-3) 3 10 0.5)
   <= 1141 + 6 + (145 - 12))%Z.
Proof.
  apply (to_px_inside_plot (plotting.mkRect 1141 12 145 145)
           main.x_min_m main.x_max_m (-3) 3 10 0.5);
    cbn [plotting.rect_width plotting.rect_height]; lia.
Defined.

(** ** gui.py: dragging a slider *)

Lemma getattr_setattr c a v d : gui.getattr (gui.setattr c a v) a d = v.
Proof.
  unfold gui.getattr, gui.setattr. cbv zeta.
  destruct (String.eqb a "k_p"); [reflexivity|].
  destruct (String.eqb a "k_i"); [reflexivity|].
  destruct (String.eqb a "k_d"); [reflexivity|].
  destruct (String.eqb a "x_err_i"); [reflexivity|].
  destruct (String.eqb a "prev_t"); [reflexivity|].
  cbn [gui.extra find fst snd].
  rewrite String.eqb_refl. reflexivity.
Qed.

Lemma setattr_gain_keeps_integral c a v :
  a = "k_p"%string \/ a = "k_i"%string \/ a = "k_d"%string ->
  Controller.x_err_i (gui.fields (gui.setattr c a v))
  = Controller.x_err_i (gui.fields c)
  /\ Controller.prev_t (gui.fields (gui.setattr c a v))
     = Controller.prev_t (gui.fields c).
Proof. intros [ -> | [ -> | -> ] ]; split; reflexivity. Qed.

Lemma unit_clamp_range r : 0 <= py_max 0.0 (py_min 1.0 r) <= 1.
Proof.
  change (py_max 0.0 (py_min 1.0 r)) with (clamp r 0.0 1.0).
  pose proof (clamp_in_range_aux r 0.0 1.0). lra.
Qed.

(** X30: dragging a slider writes to the controller attribute named by
    the slider the value [min_val + norm * (max_val - min_val)], where
    [norm], the position of the pointer along the track, lies in
    [[0, 1]]; a later [getattr] reads that value back.  A pointer at or
    left of the track start has [norm = 0] and gives exactly [min_val];
    one at or right of the track end has [norm = 1].  For a slider that
    starts at 0, as the three of [main] do, the value lies in
    [[0, max_val]] and the track end gives exactly [max_val].  When the
    attribute is one of the gains, the integral and [prev_t] of the
    controller are not disturbed. *)
Theorem slider_drag_sets_value (self : gui.ParameterPanel) (mx idx : Z)
  (ctrl : gui.Ctrl) (slider : gui.SliderConfig) :
  gui.dragging_index self = Some idx ->
  py_getitem (gui.sliders self) idx = Some slider ->
  let sx := (gui.x self + 46)%Z in
  let sw := (gui.width self - 121)%Z in
  exists norm : R,
    let value :=
      gui.min_val slider
      + norm * (gui.max_val slider - gui.min_val slider) in
    0 <= norm <= 1
    /\ gui._update_value_from_mouse self mx ctrl
       = Some (gui.setattr ctrl (gui.attr slider) value)
    /\ gui.getattr (gui.setattr ctrl (gui.attr slider) value)
                   (gui.attr slider) 0 = value
    /\ ((mx <= sx)%Z -> norm = 0 /\ value = gui.min_val slider)
    /\ ((0 < sw)%Z -> (sx + sw <= mx)%Z -> norm = 1)
    /\ (gui.min_val slider = 0 -> 0 <= gui.max_val slider ->
        0 <= value <= gui.max_val slider
        /\ (norm = 1 -> value = gui.max_val slider))
    /\ (gui.attr slider = "k_p"%string \/ gui.attr slider = "k_i"%string
        \/ gui.attr slider = "k_d"%string ->
        Controller.x_err_i
          (gui.fields (gui.setattr ctrl (gui.attr slider) value))
        = Controller.x_err_i (gui.fields ctrl)
        /\ Controller.prev_t
             (gui.fields (gui.setattr ctrl (gui.attr slider) value))
           = Controller.prev_t (gui.fields ctrl)).
Proof.
  intros Hd Hs sx sw.
  unfold gui._update_value_from_mouse. rewrite Hd, Hs.
  unfold gui._get_slider_rect, gui.padding, gui.label_width,
    gui.input_width. cbv zeta.
  replace (gui.x self + 12 + 28 + 6)%Z with sx by (unfold sx; lia).
  replace (gui.width self - 12 - 28 - 6 - 55 - 8 - 12)%Z with sw
    by (unfold sw; lia).
  set (raw := if (0 <? sw)%Z then IZR (mx - sx) / IZR sw else 0.0).
  set (norm := py_max 0.0 (py_min 1.0 raw)).
  pose proof (unit_clamp_range raw) as Hn. fold norm in Hn.
  exists norm.
  split; [exact Hn|]. split; [reflexivity|].
  split; [apply getattr_setattr|].
  split; [|split; [|split]].
  - intros Hmx.
    assert (Hraw : raw <= 0).
    { unfold raw. destruct (Z.ltb_spec 0 sw) as [Hsw|Hsw]; [|lra].
      assert (IZR (mx - sx) <= 0) by (apply (IZR_le _ 0); lia).
      assert (0 < / IZR sw)
        by (apply Rinv_0_lt_compat, (IZR_lt 0); exact Hsw).
      unfold Rdiv. nra. }
    assert (E : norm = 0).
    { unfold norm. change (py_max 0.0 (py_min 1.0 raw))
        with (clamp raw 0.0 1.0). clamp_cases. }
    split; [exact E|]. rewrite E. ring.
  - intros Hsw Hmx.
    assert (Hraw : 1 <= raw).
    { unfold raw. destruct (Z.ltb_spec 0 sw) as [_|Hc]; [|lia].
      assert (Hp : 0 < IZR sw) by (apply (IZR_lt 0); exact Hsw).
      assert (IZR sw <= IZR (mx - sx)) by (apply IZR_le; lia).
      apply Rmult_le_reg_r with (r := IZR sw); [exact Hp|].
      unfold Rdiv. rewrite Rmult_assoc, Rinv_l by lra. lra. }
    unfold norm. change (py_max 0.0 (py_min 1.0 raw))
      with (clamp raw 0.0 1.0). clamp_cases.
  - intros Hmin Hmax. rewrite Hmin. split; [nra|].
    intros E. rewrite E. ring.
  - apply setattr_gain_keeps_integral.
Qed.

(** The panel of [main]: 400 wide at x = 12, dragging the second slider
    ([k_i], from 0 to 10) with the pointer left of the track. *)
Lemma slider_drag_sets_value_witness :
  exists value : R,
    gui._update_value_from_mouse
      (gui.mkPanel 12 660 400
         [gui.mkSlider "k_p"%string "k_p"%string 0.0 10.0 (70, 140, 200)%Z;
          gui.mkSlider "k_i"%string "k_i"%string 0.0 10.0 (200, 120, 70)%Z;
          gui.mkSlider "k_d"%string "k_d"%string 0.0 10.0 (120, 180, 90)%Z]
         "Controller Gains"%string (Some 1%Z) None String.EmptyString 0) 20
      (gui.mkCtrl Controller.init [])
    = Some (gui.setattr (gui.mkCtrl Controller.init []) "k_i"%string value)
    /\ 0 <= value <= 10.0.
Proof.
  destruct (slider_drag_sets_value
              (gui.mkPanel 12 660 400
                 [gui.mkSlider "k_p"%string "k_p"%string 0.0 10.0
                               (70, 140, 200)%Z;
                  gui.mkSlider "k_i"%string "k_i"%string 0.0 10.0
                               (200, 120, 70)%Z;
                  gui.mkSlider "k_d"%string "k_d"%string 0.0 10.0
                               (120, 180, 90)%Z]
                 "Controller Gains"%string (Some 1%Z) None
                 String.EmptyString 0) 20 1
              (gui.mkCtrl Controller.init [])
              (gui.mkSlider "k_i"%string "k_i"%string 0.0 10.0
                            (200, 120, 70)%Z))
    as (norm & _ & E & _ & _ & _ & Hzero & _); try reflexivity.
  cbv zeta in E, Hzero. cbn [gui.min_val gui.max_val gui.attr] in E, Hzero.
  eexists. split; [exact E|].
  apply Hzero; lra.
Defined.

(** X16: the handle of a slider is always drawn on its track, between
    its start and its end, even for a value outside the slider's range
    (one typed into the text box, say) or a slider whose range is empty;
    a value at or below [min_val] puts it at the start. *)
Theorem slider_handle_on_track (self : gui.ParameterPanel) (index : Z)
  (value : R) (slider : gui.SliderConfig) :
  py_getitem (gui.sliders self) index = Some slider ->
  (121 <= gui.width self)%Z ->
  let sx := (gui.x self + 46)%Z in
  let sw := (gui.width self - 121)%Z in
  exists hx : Z,
    gui._get_handle_pos self index value
    = Some (hx, (gui.y self + 44 + index * 28 + 3)%Z)
    /\ (sx <= hx <= sx + sw)%Z
    /\ (value <= gui.min_val slider -> hx = sx).
Proof.
  intros Hs Hw sx sw.
  unfold gui._get_handle_pos, gui._get_slider_rect, gui.padding,
    gui.label_width, gui.input_width, gui.title_height,
    gui.slider_spacing, gui.slider_height. cbv zeta. rewrite Hs.
  replace (gui.x self + 12 + 28 + 6)%Z with sx by (unfold sx; lia).
  replace (gui.width self - 12 - 28 - 6 - 55 - 8 - 12)%Z with sw
    by (unfold sw; lia).
  set (raw := if Rgtb (gui.max_val slider) (gui.min_val slider)
              then _ else _).
  set (norm := py_max 0.0 (py_min 1.0 raw)).
  pose proof (unit_clamp_range raw) as Hn. fold norm in Hn.
  assert (Hsw : 0 <= IZR sw) by (apply (IZR_le 0); unfold sw; lia).
  exists (sx + main.float_to_int (norm * IZR sw))%Z.
  split; [|split].
  - f_equal. f_equal. change (6 / 2)%Z with 3%Z. lia.
  - assert (0 <= main.float_to_int (norm * IZR sw) <= sw)%Z; [|lia].
    apply float_to_int_between. cbn [IZR]. nra.
  - intros Hv.
    assert (Hraw : raw <= 0).
    { unfold raw. destruct (Rgtb _ _) eqn:E; [|lra].
      apply Rgtb_true in E.
      assert (0 < / (gui.max_val slider - gui.min_val slider))
        by (apply Rinv_0_lt_compat; lra).
      unfold Rdiv. nra. }
    assert (E : norm = 0).
    { unfold norm. change (py_max 0.0 (py_min 1.0 raw))
        with (clamp raw 0.0 1.0). clamp_cases. }
    rewrite E, Rmult_0_l. rewrite (float_to_int_IZR 0). lia.
Qed.

(** The [k_p] slider of [main]'s panel with a gain of 50 typed in. *)
Lemma slider_handle_on_track_witness :
  exists hx : Z,
    gui._get_handle_pos
      (gui.mkPanel 12 660 400
         [gui.mkSlider "k_p"%string "k_p"%string 0.0 10.0 (70, 140, 200)%Z]
         "Controller Gains"%string None None String.EmptyString 0) 0 50
    = Some (hx, (660 + 44 + 0 * 28 + 3)%Z)
    /\ (12 + 46 <= hx <= 12 + 46 + (400 - 121))%Z.
Proof.
  destruct (slider_handle_on_track
              (gui.mkPanel 12 660 400
                 [gui.mkSlider "k_p"%string "k_p"%string 0.0 10.0
                               (70, 140, 200)%Z]
                 "Controller Gains"%string None None String.EmptyString 0)
              0 50
              (gui.mkSlider "k_p"%string "k_p"%string 0.0 10.0
                            (70, 140, 200)%Z))
    as (hx & E & Hh & _); try reflexivity.
  - cbn. lia.
  - exists hx. split; [exact E|exact Hh].
Defined.
